(** * Evaluation metrics of [stai_utils]: feature caches, FID and pairwise MS-SSIM

    A shallow embedding of
    - [stai_utils/evaluations/metrics/fid.py]  (feature extraction to a cache
      directory, then a Frechet distance over the cached features), and
    - [stai_utils/evaluations/metrics/msssim.py] (bounded average of a pairwise
      similarity),
    together with the properties the specification states about them.

    Conventions of the embedding.
    - A Python call either returns or raises: [result A].
    - Floating-point tensors are idealised: a finite value is a real number,
      and the non-finite values of IEEE arithmetic ([nan], [+inf], [-inf])
      are explicit constructors of [fval].  Rounding is outside the model.
    - An n-dimensional tensor on which the code only performs elementwise
      operations and full reductions is the flat list of its elements.
    - A value assigned into a torch tensor carries its kind (torch tensor,
      numpy array or Python number): torch accepts the first and the last
      only.
    - The file system is a finite map from paths to file contents.
    - [np.random] is a generator state threaded through the code.
    - A data loader is a finite sequence that yields the same samples in the
      same order whenever it is iterated. *)

From Stdlib Require Import Reals Lra Lia ZArith List Permutation Ascii String.
From stdpp Require Import gmap strings pretty.

(** ** Outcomes of Python calls *)

(** The exceptions that the modelled code and the library calls it makes can
    raise: [ZeroDivisionError] (Python's [/] on a zero divisor), [IndexError]
    (indexing out of range), [RuntimeError] ([torch.vstack] of an empty
    list) and [TypeError] (an indexed assignment of a numpy array into a
    torch tensor).  [DegenerateInputError] and [CacheIntegrityError] are the
    error classes named by the specification; no statement of the two source
    files raises them. *)
Inductive exn : Set :=
| ZeroDivisionError
| IndexError
| RuntimeError
| TypeError
| DegenerateInputError
| CacheIntegrityError.

Inductive result (A : Type) : Type :=
| Ok (a : A)
| Raise (e : exn).
Arguments Ok {A} a.
Arguments Raise {A} e.

#[global] Instance result_ret : MRet result := fun A a => Ok a.

#[global] Instance result_bind : MBind result := fun A B k c =>
  match c with
  | Ok a => k a
  | Raise e => Raise e
  end.

Definition raises {A : Type} (c : result A) (e : exn) : Prop := c = Raise e.
Definition returns {A : Type} (c : result A) : Prop := exists a, c = Ok a.

(** ** Idealised tensor arithmetic *)

Module Tensor.

Local Open Scope R_scope.

(** A tensor element: a finite real or one of the three non-finite values. *)
Inductive fval : Type :=
| Fin (r : R)
| PInf
| NInf
| NaN.

(** [a - b]: [nan] is absorbing, and [inf - inf] is [nan]. *)
Definition fsub (a b : fval) : fval :=
  match a, b with
  | NaN, _ | _, NaN => NaN
  | Fin x, Fin y => Fin (x - y)
  | PInf, PInf | NInf, NInf => NaN
  | PInf, _ | _, NInf => PInf
  | NInf, _ | _, PInf => NInf
  end.

(** [a / b]: a finite non-zero numerator over zero is an infinity of its
    sign, [0 / 0] and [inf / inf] are [nan] (signed zeros are not modelled:
    the only zero divisor met in this development is a standard deviation,
    which is [+0]). *)
Definition fdiv (a b : fval) : fval :=
  match a, b with
  | NaN, _ | _, NaN => NaN
  | Fin x, Fin y =>
      if Req_dec_T y 0 then
        if Rlt_dec 0 x then PInf
        else if Rlt_dec x 0 then NInf
        else NaN
      else Fin (x / y)
  | Fin _, (PInf | NInf) => Fin 0
  | (PInf | NInf), (PInf | NInf) => NaN
  | PInf, Fin y => if Rlt_dec y 0 then NInf else PInf
  | NInf, Fin y => if Rlt_dec y 0 then PInf else NInf
  end.

(** The comparisons [x > 0] and [x == 0] of a boolean mask. *)
Definition gt0 (x : R) : bool := if Rlt_dec 0 x then true else false.
Definition eq0 (x : R) : bool := if Req_dec_T x 0 then true else false.

Definition sum (l : list R) : R := fold_right Rplus 0 l.

(** The arithmetic mean of a non-empty list, as a real. *)
Definition avg (l : list R) : R := sum l / INR (length l).

(** The sum of squared deviations from the mean over [n - 1]. *)
Definition var1 (l : list R) : R :=
  sum (map (fun x => (x - avg l) * (x - avg l)) l) / INR (length l - 1).

(** [Tensor.mean()]: [nan] on an empty tensor. *)
Definition mean (l : list R) : fval :=
  match l with
  | [] => NaN
  | _ :: _ => Fin (avg l)
  end.

(** [Tensor.std()], whose default is the unbiased estimator (Bessel's
    correction): [nan] when there are fewer than two elements. *)
Definition std (l : list R) : fval :=
  match l with
  | [] | [_] => NaN
  | _ :: _ :: _ => Fin (sqrt (var1 l))
  end.

(** [a[mask]]: the elements of [a] at the positions where [mask] holds. *)
Fixpoint getitem_mask {A : Type} (a : list A) (mask : list bool) : list A :=
  match a, mask with
  | x :: a', m :: mask' =>
      if m then x :: getitem_mask a' mask' else getitem_mask a' mask'
  | _, _ => []
  end.

(** The positions of [out] where [mask] holds, filled in order with the
    elements of [values]. *)
Fixpoint masked_scatter (out : list fval) (mask : list bool) (values : list fval)
  : list fval :=
  match out, mask with
  | o :: out', m :: mask' =>
      if m then
        match values with
        | v :: values' => v :: masked_scatter out' mask' values'
        | [] => o :: masked_scatter out' mask' []
        end
      else o :: masked_scatter out' mask' values
  | _, _ => out
  end.

(** What stands on the right of an indexed assignment. *)
Inductive assigned : Type :=
| TorchTensor (values : list fval)
| NumpyArray (values : list R)
| PyNumber (x : R).

(** [out[mask] = value] on a torch tensor [out].  Torch takes a tensor or a
    Python number as [value]; for anything else, a numpy array included, it
    raises [TypeError] ("can't assign a numpy.ndarray to a
    torch.FloatTensor"). *)
Definition torch_setitem_mask (out : list fval) (mask : list bool)
    (value : assigned) : result (list fval) :=
  match value with
  | TorchTensor values => Ok (masked_scatter out mask values)
  | PyNumber x =>
      Ok (zip_with (fun o (m : bool) => if m then Fin x else o) out mask)
  | NumpyArray _ => Raise TypeError
  end.

End Tensor.

(** ** The random generator *)

(** The state of [np.random]: the stream of standard-normal values it will
    produce next.  [np_random_normal g n] is [np.random.normal(0, 1, size)]
    for a shape of [n] elements: the first [n] values of the stream, and the
    generator advanced past them. *)
Definition rng : Type := nat -> R.

Definition np_random_normal (g : rng) (n : nat) : list R * rng :=
  (map g (seq 0 n), fun k => g (n + k)%nat).

(** ** Volumetric preprocessing ([__itensity_normalize_one_volume__]) *)

Module Volumetric.
Import Tensor.
Local Open Scope R_scope.

(** One voxel of [(volume - mean) / std]. *)
Definition normalized (m s : fval) (x : R) : fval := fdiv (fsub (Fin x) m) s.

(** The value of [out] after [out = (volume - mean) / std], the first four
    statements of the function. *)
Definition normalized_volume (volume : list R) : list fval :=
  let pixels := List.filter gt0 volume in
  let mean := Tensor.mean pixels in
  let std := Tensor.std pixels in
  map (normalized mean std) volume.

(** "normalize the itensity of an nd volume based on the mean and std of
    nonzeor region".  [volume] is the torch tensor made by the caller, so
    [out] is a torch tensor; [out_random] is the numpy array returned by
    [np.random.normal], with one value per element of [volume.shape], and so
    is [out_random[volume == 0]], which the last assignment hands to
    torch. *)
Definition __itensity_normalize_one_volume__ (g : rng) (volume : list R)
  : result (list fval * rng) :=
  let pixels := List.filter gt0 volume in
  let mean := Tensor.mean pixels in
  let std := Tensor.std pixels in
  let out := map (fun x => fdiv (fsub (Fin x) mean) std) volume in
  let '(out_random, g') := np_random_normal g (length volume) in
  let mask := map eq0 volume in
  out ← torch_setitem_mask out mask (NumpyArray (getitem_mask out_random mask));
  Ok (out, g').

(** The output voxels at the positions of the foreground (original value
    strictly positive). *)
Definition foreground_of (volume : list R) (out : list fval) : list fval :=
  map snd (List.filter (fun p => gt0 p.1) (zip volume out)).

(** A list of tensor values is standardized when all are finite, their mean
    is zero and their variance (divisor [n - 1], as [Tensor.std]) is one. *)
Definition standardized (l : list fval) : Prop :=
  exists rs, l = map Fin rs /\ avg rs = 0 /\ var1 rs = 1.

End Volumetric.

(** ** Samples, tensors with a shape, and the cache directory *)

(** [data["image"]] is a batch of volumes: batch x channel x depth x height
    x width, as nested lists. *)
Definition plane : Type := list (list R).
Definition tensor4 : Type := list (list plane).
Definition tensor5 : Type := list (list (list plane)).

(** A dense tensor: its shape and its elements in storage order.  The
    volumetric path only maps over the elements and reduces them. *)
Record dense (A : Type) : Type := Dense { shape : list nat; elems : list A }.
Arguments Dense {A} shape elems.
Arguments shape {A} d.
Arguments elems {A} d.

Definition shape5 (t : tensor5) : list nat :=
  let c := hd [] t in
  let d := hd [] c in
  let h := hd [] d in
  let w := hd [] h in
  [length t; length c; length d; length h; length w].

Definition to_dense (t : tensor5) : dense R :=
  Dense (shape5 t) (concat (concat (concat (concat t)))).

(** [x[0]] on a sequence. *)
Definition getitem0 {A : Type} (l : list A) : result A :=
  match l with
  | [] => Raise IndexError
  | x :: _ => Ok x
  end.

(** [for x in xs: s = body(s, x)], stopping at the first exception. *)
Fixpoint for_each {S A : Type} (body : S -> A -> result S) (xs : list A) (s : S)
  : result S :=
  match xs with
  | [] => Ok s
  | x :: xs' => s' ← body s x; for_each body xs' s'
  end.

(** [enumerate(loader)]: a loader is a finite sequence that yields the same
    samples in the same order each time it is iterated. *)
Definition enumerate {A : Type} (l : list A) : list (nat * A) :=
  combine (seq 0 (length l)) l.

(** [os.path.join(a, b)] on POSIX paths. *)
Fixpoint ends_with_sep (s : string) : bool :=
  match s with
  | EmptyString => false
  | String c EmptyString => bool_decide (c = "/"%char)
  | String _ s' => ends_with_sep s'
  end.

Definition starts_with_sep (s : string) : bool :=
  match s with
  | String c _ => bool_decide (c = "/"%char)
  | EmptyString => false
  end.

Definition os_path_join (a b : string) : string :=
  if starts_with_sep b then b
  else if bool_decide (a = "") || ends_with_sep a then a +:+ b
  else a +:+ "/" +:+ b.

(** [f"feat_{i}.npz"] *)
Definition feat_name (i : nat) : string := "feat_" +:+ pretty i +:+ ".npz".

Definition save_path (dest_dir : string) (i : nat) : string :=
  os_path_join dest_dir (feat_name i).

Section Cache.

(** The types of an embedding vector and of the two metadata fields. *)
Context {embedding Age Sex : Type}.

Record sample : Type := Sample { image : tensor5; age : Age; sex : Sex }.

(** The content of one [.npz] file written by [np.savez(path, feat=...,
    age=..., sex=...)]. *)
Record npz : Type := Npz { npz_feat : embedding; npz_age : Age; npz_sex : Sex }.

(** Observable effects of an extraction run, in the order they happen: a
    call of the feature extractor, and a call of [np.savez]. *)
Inductive event : Type :=
| Inference
| Savez (path : string) (content : npz).

Definition is_inference (e : event) : bool :=
  match e with Inference => true | Savez _ _ => false end.

Record world : Type := World {
  fs : gmap string npz;
  gen : rng;
  trace : list event
}.

(** [os.path.exists(path)] *)
Definition os_path_exists (w : world) (path : string) : bool :=
  bool_decide (is_Some (fs w !! path)).

Definition inference_calls (w : world) : nat :=
  length (List.filter is_inference (trace w)).

Definition savez_calls (w : world) : list (string * npz) :=
  flat_map (fun e => match e with Inference => [] | Savez p c => [(p, c)] end)
           (trace w).

(** The sample at position [i] is skipped by a run that starts in [w]. *)
Definition skipped (skip_existing : bool) (w : world) (dest_dir : string)
    (i : nat) : bool :=
  skip_existing && os_path_exists w (save_path dest_dir i).

(** [enumerate], counting from [k]. *)
Definition enumerate_from {A : Type} (k : nat) (l : list A) : list (nat * A) :=
  combine (seq k (length l)) l.

(** *** [_extract_medicalnet_features_to_dir] *)

Section Medicalnet.

(** The backbone: a batch in, one embedding per batch element out. *)
Variable feature_extractor : dense Tensor.fval -> list embedding.

(** The body of the loop, for the sample [data] at position [i].  The
    [print] of the skipping branch has no effect on the state. *)
Definition medicalnet_body (dest_dir : string) (skip_existing : bool)
    (w : world) (x : nat * sample) : result world :=
  let '(i, data) := x in
  let save_path := save_path dest_dir i in
  if skip_existing && os_path_exists w save_path then Ok w
  else
    let image := to_dense (image data) in
    '(out, g') ← Volumetric.__itensity_normalize_one_volume__ (gen w) (elems image);
    let image := Dense (shape image) out in
    let age := age data in
    let sex := sex data in
    let feat := feature_extractor image in
    feat0 ← getitem0 feat;
    let content := Npz feat0 age sex in
    Ok (World (<[save_path := content]> (fs w)) g'
              (trace w ++ [Inference; Savez save_path content])).

Definition _extract_medicalnet_features_to_dir (loader : list sample)
    (dest_dir : string) (skip_existing : bool) (w : world) : result world :=
  for_each (medicalnet_body dest_dir skip_existing) (enumerate loader) w.

End Medicalnet.

(** *** [_extract_imagenet_features_to_dir] *)

Section Imagenet.
Local Open Scope R_scope.

Variable feature_extractor : tensor4 -> list embedding.

(** [x[k]] on a sequence. *)
Definition getitem {A : Type} (k : nat) (l : list A) : result A :=
  match l !! k with
  | Some x => Ok x
  | None => Raise IndexError
  end.

(** [image[:, :, image.shape[2] // 2]]: the central slice along the depth
    axis of every channel of every batch element. *)
Definition central_slice (image : tensor5) : result tensor4 :=
  let depth := length (hd [] (hd [] image)) in
  mapM (mapM (getitem (Nat.div depth 2))) image.

(** [image.shape[1]]: the number of channels. *)
Definition shape1 (image : tensor4) : nat := length (hd [] image).

(** [image.repeat(1, 3, 1, 1)]: the channel axis tiled three times. *)
Definition repeat_1_3_1_1 (image : tensor4) : tensor4 :=
  map (fun channels => channels ++ channels ++ channels) image.

(** The statement [if image.shape[1]: image = image.repeat(1, 3, 1, 1)];
    a Python integer is true when it is not zero. *)
Definition replicate_channels (image : tensor4) : tensor4 :=
  if negb (shape1 image =? 0)%nat then repeat_1_3_1_1 image else image.

(** [image[:, [2, 1, 0], ...]] *)
Definition rgb_to_bgr (image : tensor4) : result tensor4 :=
  mapM (fun channels : list plane => mapM (fun k => getitem k channels) [2; 1; 0]%nat)
       image.

(** [x[:, k, :, :] -= m], in place. *)
Definition plane_sub (m : R) (p : plane) : plane := map (map (fun v => v - m)) p.

Definition sub_channel (k : nat) (m : R) (x : tensor4) : result tensor4 :=
  mapM (fun channels : list plane =>
          if decide (k < length channels)%nat
          then Ok (alter (plane_sub m) k channels)
          else Raise IndexError) x.

Definition subtract_mean (x : tensor4) : result tensor4 :=
  let mean := (0.406, 0.456, 0.485) in
  x ← sub_channel 0 mean.1.1 x;
  x ← sub_channel 1 mean.1.2 x;
  x ← sub_channel 2 mean.2 x;
  Ok x.

(** The three planes that the model is given for the channels of one batch
    element: the channels 2, 1 and 0, counted modulo the number of channels,
    each minus its constant. *)
Definition model_channels (channels : list plane) : list plane :=
  let k := length channels in
  [plane_sub 0.406 (nth (2 mod k) channels []);
   plane_sub 0.456 (nth (1 mod k) channels []);
   plane_sub 0.485 (nth 0 channels [])].

(** A batch of volumes is rectangular along the channel and depth axes when
    every batch element has the same number [k >= 1] of channels and every
    channel the same depth, at least one: what a tensor of shape
    [(B, k, D, H, W)] is. *)
Definition depth_of (image : tensor5) : nat := length (hd [] (hd [] image)).

Definition rectangular (k : nat) (image : tensor5) : Prop :=
  (1 <= k)%nat /\ (1 <= depth_of image)%nat
  /\ Forall (fun channels => length channels = k) image
  /\ Forall (Forall (fun channel => length channel = depth_of image)) image.

(** The central slices of a rectangular batch, and the tensor that the model
    is given for it. *)
Definition central_slices (image : tensor5) : tensor4 :=
  map (map (fun channel => nth (Nat.div (depth_of image) 2) channel [])) image.

Definition model_input (image : tensor5) : tensor4 :=
  map model_channels (central_slices image).

(** "Get features from the input image."  ([torch.no_grad()] has no
    observable effect here.) *)
Definition _get_imagenet_features (image : tensor4) : result (list embedding) :=
  let image := replicate_channels image in
  image ← rgb_to_bgr image;
  image ← subtract_mean image;
  let feature_image := feature_extractor image in
  Ok feature_image.

Definition imagenet_body (dest_dir : string) (skip_existing : bool)
    (w : world) (x : nat * sample) : result world :=
  let '(i, data) := x in
  let image := image data in
  image ← central_slice image;
  let save_path := save_path dest_dir i in
  if skip_existing && os_path_exists w save_path then Ok w
  else
    let age := age data in
    let sex := sex data in
    feat ← _get_imagenet_features image;
    feat0 ← getitem0 feat;
    let content := Npz feat0 age sex in
    Ok (World (<[save_path := content]> (fs w)) (gen w)
              (trace w ++ [Inference; Savez save_path content])).

Definition _extract_imagenet_features_to_dir (loader : list sample)
    (dest_dir : string) (skip_existing : bool) (w : world) : result world :=
  for_each (imagenet_body dest_dir skip_existing) (enumerate loader) w.

(** The [np.savez] call [(path, content)] is the record that the 2D path
    writes for the sample at position [x.1]: the file is [feat_<i>.npz], it
    holds the first embedding that the backbone returns for the model input
    of the sample, with the sample's age and sex, and it is what the file
    system [w'] has at that path. *)
Definition is_slice_record_of (dest_dir : string) (w' : world) (x : nat * sample)
    (call : string * npz) : Prop :=
  call.1 = save_path dest_dir x.1
  /\ getitem0 (feature_extractor (model_input (image x.2))) = Ok (npz_feat call.2)
  /\ npz_age call.2 = age x.2
  /\ npz_sex call.2 = sex x.2
  /\ fs w' !! call.1 = Some call.2.

End Imagenet.

(** *** [evaluate_fid_medicalnet3d] and [evaluate_fid_imagenet2d] *)

Section Evaluate.

(** The type of the scalar that [FIDMetric()(...).item()] returns. *)
Context {D : Type}.

(** The two pretrained backbones ([_get_medicalnet_model()],
    [_get_imagenet_model()]) and the third-party metric, as black boxes. *)
Variable medicalnet : dense Tensor.fval -> list embedding.
Variable imagenet : tensor4 -> list embedding.
Variable FIDMetric : list embedding -> list embedding -> D.

(** [stai_utils.evaluations.util.create_dataloader_from_dir] is not part of
    the sources at hand: it is a parameter.  Iterating the loader it returns
    for a directory of a file system yields the ["feat"] field of each
    batch, a block of embedding rows. *)
Variable create_dataloader_from_dir : gmap string npz -> string -> list (list embedding).

(** [torch.vstack(tensors)]: refuses an empty list. *)
Definition torch_vstack (tensors : list (list embedding)) : result (list embedding) :=
  match tensors with
  | [] => Raise RuntimeError
  | _ :: _ => Ok (concat tensors)
  end.

(** The [for real, fake in zip(...)] loop: the two lists it builds. *)
Definition collect_feats (real_feat_loader fake_feat_loader : list (list embedding))
  : list (list embedding) * list (list embedding) :=
  fold_left (fun acc rf => (acc.1 ++ [rf.1], acc.2 ++ [rf.2]))
            (zip real_feat_loader fake_feat_loader) ([], []).

(** The part shared by the two entry points, after extraction. *)
Definition fid_from_dirs (w : world) (real_feat_dir fake_feat_dir : string)
  : result D :=
  let real_feat_loader := create_dataloader_from_dir (fs w) real_feat_dir in
  let fake_feat_loader := create_dataloader_from_dir (fs w) fake_feat_dir in
  let '(real_feats, fake_feats) := collect_feats real_feat_loader fake_feat_loader in
  fake ← torch_vstack fake_feats;
  real ← torch_vstack real_feats;
  Ok (FIDMetric fake real).

(** The number of loader items that the [zip] pairs up, and the value of
    the metric on the first that many items of each loader. *)
Definition paired_count (w : world) (real_feat_dir fake_feat_dir : string) : nat :=
  Nat.min (length (create_dataloader_from_dir (fs w) real_feat_dir))
          (length (create_dataloader_from_dir (fs w) fake_feat_dir)).

Definition truncated_fid (w : world) (real_feat_dir fake_feat_dir : string) : D :=
  let m := paired_count w real_feat_dir fake_feat_dir in
  FIDMetric (concat (firstn m (create_dataloader_from_dir (fs w) fake_feat_dir)))
            (concat (firstn m (create_dataloader_from_dir (fs w) real_feat_dir))).

Definition evaluate_fid_medicalnet3d (real_img_loader fake_img_loader : list sample)
    (real_feat_dir fake_feat_dir : string) (skip_existing : bool) (w : world)
  : result (D * world) :=
  w ← _extract_medicalnet_features_to_dir medicalnet real_img_loader
        real_feat_dir skip_existing w;
  w ← _extract_medicalnet_features_to_dir medicalnet fake_img_loader
        fake_feat_dir skip_existing w;
  d ← fid_from_dirs w real_feat_dir fake_feat_dir;
  Ok (d, w).

Definition evaluate_fid_imagenet2d (real_img_loader fake_img_loader : list sample)
    (real_feat_dir fake_feat_dir : string) (skip_existing : bool) (w : world)
  : result (D * world) :=
  w ← _extract_imagenet_features_to_dir imagenet real_img_loader
        real_feat_dir skip_existing w;
  w ← _extract_imagenet_features_to_dir imagenet fake_img_loader
        fake_feat_dir skip_existing w;
  d ← fid_from_dirs w real_feat_dir fake_feat_dir;
  Ok (d, w).

End Evaluate.

End Cache.

Arguments sample : clear implicits.
Arguments npz : clear implicits.
Arguments event : clear implicits.
Arguments world : clear implicits.

(** ** The Feature Collection Loader *)

Section Loader.
Context {embedding Age Sex : Type}.

(** Modelled from the spec: [create_dataloader_from_dir], which reads a cache
    directory back, is not among the sources at hand.  Following sections 3
    and 4.4 of the specification, [load] reads the records of a Cache
    Directory (a collection of Feature Records addressable by source index)
    in ascending index order over the contiguous range [0, count), where
    [count] is the number of samples that the originating loader produced,
    stacks their embeddings in that order, and fails with the MissingRecord
    error, a [CacheIntegrityError], when an index of the range has no
    record. *)
Definition load (count : nat) (cache_dir : gmap nat (npz embedding Age Sex))
  : result (list embedding) :=
  mapM (fun i => match cache_dir !! i with
                 | Some record => Ok (npz_feat record)
                 | None => Raise CacheIntegrityError
                 end)
       (seq 0 count).

End Loader.

(** ** The Distributional Distance Estimator *)

Module Frechet.
Section Frechet.
Local Open Scope R_scope.

(** The feature dimension, and the principal matrix square root. *)
Variable d : nat.
Variable sqrtm : list (list R) -> list (list R).

Definition matrix : Type := list (list R).

Definition entry (M : matrix) (j k : nat) : R := nth k (nth j M []) 0.

Definition tabulate (f : nat -> nat -> R) : matrix :=
  map (fun j => map (fun k => f j k) (seq 0 d)) (seq 0 d).

(** Modelled from the spec: the two summaries of a feature matrix that
    section 4.5 names, its per-column mean vector and its covariance matrix
    (divisor [n - 1]). *)

(** Column [j] of a feature matrix, one entry per row. *)
Definition column (j : nat) (X : matrix) : list R := map (fun row => nth j row 0) X.

(** The per-column mean of the rows. *)
Definition mu (X : matrix) : list R :=
  map (fun j => Tensor.sum (column j X) / INR (length X)) (seq 0 d).

(** The covariance matrix of the columns (divisor [n - 1]). *)
Definition sigma (X : matrix) : matrix :=
  tabulate (fun j k =>
    Tensor.sum (map (fun row => (nth j row 0 - nth j (mu X) 0)
                                 * (nth k row 0 - nth k (mu X) 0)) X)
    / INR (length X - 1)).

Definition mmul (A B : matrix) : matrix :=
  tabulate (fun j k =>
    Tensor.sum (map (fun l => entry A j l * entry B l k) (seq 0 d))).

Definition tr (A : matrix) : R :=
  Tensor.sum (map (fun j => entry A j j) (seq 0 d)).

Definition sq_norm_diff (u v : list R) : R :=
  Tensor.sum (map (fun j => (nth j u 0 - nth j v 0) * (nth j u 0 - nth j v 0))
                  (seq 0 d)).

(** Modelled from the spec: [generative.metrics.FIDMetric] is a third-party
    class whose source is not at hand.  Section 4.5 of the specification
    gives the closed form
    [||mu_real - mu_fake||^2 + trace(C_real + C_fake - 2 * sqrtm(C_real @ C_fake))]
    over the mean vector and the covariance matrix of each feature matrix,
    in exact arithmetic here.  For a matrix with fewer than two rows the
    specification does not define the covariance; the divisor is then zero
    and the quotient is whatever Rocq's total division returns. *)
Definition frechet (mu_real : list R) (C_real : matrix)
    (mu_fake : list R) (C_fake : matrix) : R :=
  sq_norm_diff mu_real mu_fake
  + (tr C_real + tr C_fake - 2 * tr (sqrtm (mmul C_real C_fake))).

(** Modelled from the spec: [distance(real_matrix, fake_matrix)], the
    closed form applied to the summaries of the two matrices. *)
Definition distance (real_matrix fake_matrix : matrix) : R :=
  frechet (mu real_matrix) (sigma real_matrix) (mu fake_matrix) (sigma fake_matrix).

End Frechet.
End Frechet.

(** ** The Pairwise Similarity Sampler ([msssim.py]) *)

Module Msssim.
Section Msssim.
Local Open Scope R_scope.

(** The type of [data["vol_data"].float()], and the metric
    [MultiScaleSSIMMetric(spatial_dims=3, kernel_size=9)] followed by
    [.item()], a black box. *)
Context {vol : Type}.
Variable msssim : vol -> vol -> R.

(** The inner [for j, data2 in enumerate(loader)] loop, on the state
    [(tot_metric, count)].  [break] leaves this loop only. *)
Fixpoint inner_loop (N : Z) (i : nat) (data1 : vol) (js : list (nat * vol))
    (st : R * Z) : R * Z :=
  match js with
  | [] => st
  | (j, data2) :: js' =>
      if (N <=? st.2)%Z then st
      else if bool_decide (i ≠ j)
      then inner_loop N i data1 js' (st.1 + msssim data1 data2, (st.2 + 1)%Z)
      else inner_loop N i data1 js' st
  end.

Definition outer_loop (N : Z) (loader : list vol) (outer : list (nat * vol))
    (st : R * Z) : R * Z :=
  fold_left (fun st x => inner_loop N x.1 x.2 (enumerate loader) st) outer st.

(** [tot_metric / count] raises [ZeroDivisionError] when [count] is zero. *)
Definition compute_pairwise_msssim (loader : list vol) (N : Z) : result R :=
  let st := outer_loop N loader (enumerate loader) (0, 0%Z) in
  if (st.2 =? 0)%Z then Raise ZeroDivisionError
  else Ok (st.1 / IZR st.2).

(** The ordered pairs of distinct positions, in the order of the two nested
    loops: for each [i] in order, for each [j] in order, skipping [i = j]. *)
Definition pairs_from (loader : list vol) (x : nat * vol) : list ((nat * nat) * (vol * vol)) :=
  flat_map (fun y => if bool_decide (x.1 ≠ y.1) then [((x.1, y.1), (x.2, y.2))] else [])
           (enumerate loader).

Definition ordered_pairs (loader : list vol) : list ((nat * nat) * (vol * vol)) :=
  flat_map (pairs_from loader) (enumerate loader).

Definition similarity (p : (nat * nat) * (vol * vol)) : R := msssim p.2.1 p.2.2.

(** The index pairs [(i, j)] with [i <> j] below [n], in lexicographic
    order. *)
Definition distinct_index_pairs (n : nat) : list (nat * nat) :=
  flat_map (fun i => flat_map (fun j => if bool_decide (i ≠ j) then [(i, j)] else [])
                              (seq 0 n))
           (seq 0 n).

(** The two loops seen as one pass over a list of similarities: values are
    added, and counted, until the count has reached the budget [N]. *)
Fixpoint accumulate (N : Z) (sims : list R) (st : R * Z) : R * Z :=
  match sims with
  | [] => st
  | s :: sims' =>
      if (N <=? st.2)%Z then st
      else accumulate N sims' (st.1 + s, (st.2 + 1)%Z)
  end.

(** The running sum of the loop: [((0 + s1) + s2) + ...]. *)
Definition running_sum (l : list R) : R := fold_left Rplus l 0.

Definition arithmetic_mean (l : list R) : R := running_sum l / INR (length l).

End Msssim.
End Msssim.

(** ** Computations of the plotting functions ([plots.py]) *)

(** The plotting functions read JSON files and draw with matplotlib; what is
    embedded here are the computations they make in between: the age bins
    and the colour map of [boxplot_loss_vs_agebins], the grouped values, the
    colour map and the bar layout of [barplot_grouped_absolute_cohens_d],
    and the box layout of [boxplot_voxel_distributions]. *)
Module Plots.
Local Open Scope R_scope.

(** [AttributeError], besides the exceptions met so far. *)
Inductive error : Set :=
| AttributeError
| Builtin (e : exn).

Inductive outcome (A : Type) : Type :=
| Returns (a : A)
| Raises (e : error).
Arguments Returns {A} a.
Arguments Raises {A} e.

(** *** Age bins ([boxplot_loss_vs_agebins]) *)

(** [.astype(int)]: the conversion of a float to a 64-bit integer.  A value
    outside the range of the type converts to the smallest 64-bit integer. *)
Definition int64_min : Z := (- 2 ^ 63)%Z.
Definition int64_max : Z := (2 ^ 63 - 1)%Z.

Definition astype_int (x : Z) : Z :=
  if ((int64_min <=? x) && (x <=? int64_max))%Z then x else int64_min.

(** [(df["label"] // 10 * 10).astype(int)], for the label of one row. *)
Definition decade (label : R) : Z := astype_int (Int_part (label / 10) * 10).

(** The labels whose decade is within the range of a 64-bit integer. *)
Definition castable (label : R) : Prop :=
  IZR int64_min + 10 <= label <= IZR int64_max.

(** [combined_df[~combined_df["decade"].isin(bins_to_ignore)]], guarded by
    [if bins_to_ignore:], on rows [(label, loss)]. *)
Definition keep_rows (bins_to_ignore : option (list Z)) (rows : list (R * R))
  : list (R * R) :=
  match bins_to_ignore with
  | None | Some [] => rows
  | Some bins =>
      List.filter (fun row => negb (bool_decide (decade row.1 ∈ bins))) rows
  end.

(** The losses that [groupby(["decade", "model"])["loss"].apply(list)] filed
    under the decade [d], for the rows of one model. *)
Definition box_of (d : Z) (rows : list (R * R)) : list R :=
  map snd (List.filter (fun row => bool_decide (decade row.1 = d)) rows).

(** *** The colour map *)

Section ColorMap.
Context {color : Type}.

(** [{model: colors.get(model, default_colors[i % len(default_colors)])
      for i, model in enumerate(models.keys())}]: the attribute [get] is
    looked up first, then the default argument is evaluated, then [get] is
    called. *)
Fixpoint color_map_from (colors : option (gmap string color))
    (default_colors : list color) (i : nat) (models : list string)
    (acc : gmap string color) : outcome (gmap string color) :=
  match models with
  | [] => Returns acc
  | model :: models' =>
      match colors with
      | None => Raises AttributeError
      | Some given =>
          if (length default_colors =? 0)%nat then Raises (Builtin ZeroDivisionError)
          else
            match default_colors !! (i mod length default_colors)%nat with
            | None => Raises (Builtin IndexError)
            | Some fallback =>
                color_map_from colors default_colors (S i) models'
                               (<[model := default fallback (given !! model)]> acc)
            end
      end
  end.

Definition color_map (colors : option (gmap string color))
    (default_colors : list color) (models : list string)
  : outcome (gmap string color) :=
  color_map_from colors default_colors 0 models ∅.

End ColorMap.

(** *** Grouped effect sizes ([barplot_grouped_absolute_cohens_d]) *)

(** [np.mean] of a list: [nan] (with a warning) when the list is empty. *)
Definition np_mean (l : list R) : Tensor.fval :=
  match l with
  | [] => Tensor.NaN
  | _ :: _ => Tensor.Fin (Tensor.sum l / INR (length l))
  end.

(** [indices = [i for i in indices if i not in ignore_indices]] followed by
    [np.mean([abs(model_data.get(str(i), 0)) for i in indices])]. *)
Definition grouped_cohens_d (model_data : gmap string R) (ignore_indices : gset Z)
    (indices : list Z) : Tensor.fval :=
  let indices :=
    List.filter (fun i => negb (bool_decide (i ∈ ignore_indices))) indices in
  np_mean (map (fun i => Rabs (default 0 (model_data !! pretty i))) indices).

(** [width = 0.8 / len(model_files)] *)
Definition bar_width (num_models : nat) : outcome R :=
  if (num_models =? 0)%nat then Raises (Builtin ZeroDivisionError)
  else Returns (0.8 / INR num_models).

(** [x + i * width] at the group [g] of [x = np.arange(...)], and the tick
    [x + width * (len(model_files) - 1) / 2]. *)
Definition bar_position (width : R) (g i : nat) : R := INR g + INR i * width.

Definition tick_position (width : R) (num_models g : nat) : R :=
  INR g + width * (INR num_models - 1) / 2.

(** *** Box layout ([boxplot_voxel_distributions]) *)

(** [width = 0.6 / num_models] and
    [x_positions + (i - num_models / 2) * width + width / 2]. *)
Definition box_width (num_models : nat) : outcome R :=
  if (num_models =? 0)%nat then Raises (Builtin ZeroDivisionError)
  else Returns (0.6 / INR num_models).

Definition box_position (num_models : nat) (width : R) (g i : nat) : R :=
  INR g + (INR i - INR num_models / 2) * width + width / 2.

End Plots.

(** ** Example data *)

(** One batch holding one single-channel volume of depth 1, height 1 and
    width 2, of a 63-year-old subject; a backbone that always returns one
    embedding; an empty file system. *)
Definition example_sample : sample nat bool :=
  Sample [[[[[1%R; 0%R]]]]] 63%nat true.

Definition example_medicalnet : dense Tensor.fval -> list nat := fun _ => [7%nat].
Definition example_imagenet : tensor4 -> list nat := fun _ => [7%nat].

Definition example_world : world nat nat bool := World ∅ (fun _ => 0%R) [].

(** A loader of cached features that yields the records at the positions 0
    and 1 of the directory, those that exist, each as a batch of one row; and
    a metric that returns the two matrices it is given. *)
Definition example_dataloader (m : gmap string (npz nat nat bool)) (dir : string)
  : list (list nat) :=
  omap (fun i => (fun record => [npz_feat record]) <$> m !! save_path dir i)
       [0; 1]%nat.

Definition example_fid (fake real : list nat) : list nat * list nat := (fake, real).

(** A cache directory with the records 0 and 2 but not 1, and one with the
    records 0 and 1 only. *)
Definition example_gap : gmap nat (npz nat nat bool) :=
  {[ 0%nat := Npz 7%nat 63%nat true; 2%nat := Npz 8%nat 41%nat false ]}.

Definition example_truncated : gmap nat (npz nat nat bool) :=
  {[ 0%nat := Npz 7%nat 63%nat true; 1%nat := Npz 8%nat 41%nat false ]}.

(** Another sample, and a file system that already holds a record at
    position 0 of the directory [cache]. *)
Definition example_other_sample : sample nat bool :=
  Sample [[[[[5%R; 6%R]]]]] 20%nat false.

Definition example_cached_world : world nat nat bool :=
  World {[ "cache/feat_0.npz" := Npz 1%nat 2%nat false ]} (fun _ => 0%R) [].

(** * Properties *)

(** ** Volumetric preprocessing *)

Section VolumetricProps.
Import Tensor Volumetric.
Local Open Scope R_scope.

Lemma gt0_true x : gt0 x = true <-> 0 < x.
Proof. unfold gt0. destruct (Rlt_dec 0 x); split; intros; (done || lra). Qed.

Lemma gt0_false x : gt0 x = false <-> x <= 0.
Proof. unfold gt0. destruct (Rlt_dec 0 x); split; intros; (done || lra). Qed.

Lemma eq0_true x : eq0 x = true <-> x = 0.
Proof. unfold eq0. destruct (Req_dec_T x 0); split; intros; done. Qed.

Lemma eq0_false x : eq0 x = false <-> x <> 0.
Proof. unfold eq0. destruct (Req_dec_T x 0); split; intros; done. Qed.

(** Whatever the volume, the last assignment hands a numpy array to torch:
    the function raises [TypeError] and returns nothing. *)
Lemma itensity_normalize_raises (g : rng) (volume : list R) :
  __itensity_normalize_one_volume__ g volume = Raise TypeError.
Proof. reflexivity. Qed.

Lemma filter_gt0_nil (volume : list R) :
  Forall (fun x => x <= 0) volume -> List.filter gt0 volume = [].
Proof.
  induction 1 as [|x l Hx _ IH]; simpl; [done|].
  apply gt0_false in Hx. by rewrite Hx.
Qed.

Lemma normalized_nan (x : R) : normalized NaN NaN x = NaN.
Proof. reflexivity. Qed.

(** C1, as stated, fails: on a volume without a strictly positive voxel the
    preprocessing function does not raise [DegenerateInputError]; what it
    raises is the [TypeError] of its last assignment. *)
Lemma empty_foreground_not_raised :
  Forall (fun x => x <= 0) [0; -1]
  /\ __itensity_normalize_one_volume__ (fun _ => 0) [0; -1] = Raise TypeError
  /\ ~ raises (__itensity_normalize_one_volume__ (fun _ => 0) [0; -1])
             DegenerateInputError.
Proof.
  split; [repeat constructor; lra|]. split; [reflexivity|].
  unfold raises. by rewrite itensity_normalize_raises.
Qed.

(** C1 (amended): the volumetric preprocessing has no guard for an empty
    foreground.  For every volume without a strictly positive voxel, the
    mean and the deviation of the empty foreground are [nan], the volume
    normalized by [(volume - mean) / std] is [nan] at every voxel, and no
    [DegenerateInputError] is raised. *)
Theorem empty_foreground_is_not_guarded (g : rng) (volume : list R) :
  Forall (fun x => x <= 0) volume ->
  mean (List.filter gt0 volume) = NaN
  /\ std (List.filter gt0 volume) = NaN
  /\ normalized_volume volume = map (fun _ => NaN) volume
  /\ ~ raises (__itensity_normalize_one_volume__ g volume) DegenerateInputError.
Proof.
  intros Hneg. unfold normalized_volume.
  rewrite (filter_gt0_nil volume Hneg). simpl.
  split; [done|]. split; [done|]. split; [done|].
  unfold raises. by rewrite itensity_normalize_raises.
Qed.

Lemma empty_foreground_is_not_guarded_witness :
  normalized_volume [0; -1] = [NaN; NaN].
Proof.
  assert (H : Forall (fun x => x <= 0) [0; -1]) by (repeat constructor; lra).
  destruct (empty_foreground_is_not_guarded (fun k => INR k) [0; -1] H)
    as (_ & _ & Heq & _).
  exact Heq.
Defined.

(** Sums of the foreground. *)

Lemma sum_map_ext {A : Type} (f h : A -> R) (l : list A) :
  (forall x, In x l -> f x = h x) -> sum (map f l) = sum (map h l).
Proof.
  unfold sum. induction l as [|x l IH]; simpl; intros Hext; [done|].
  rewrite Hext by (by left). rewrite IH; [done|].
  intros y Hy. apply Hext. by right.
Qed.

Lemma sum_map_scale {A : Type} (c : R) (f : A -> R) (l : list A) :
  sum (map (fun x => c * f x) l) = c * sum (map f l).
Proof. unfold sum. induction l as [|x l IH]; simpl; [lra|]. rewrite IH. lra. Qed.

Lemma sum_map_shift (m : R) (l : list R) :
  sum (map (fun x => x - m) l) = sum l - INR (length l) * m.
Proof.
  induction l as [|x l IH]; [simpl; lra|].
  change (sum (map (fun x => x - m) (x :: l)))
    with ((x - m) + sum (map (fun x => x - m) l)).
  change (sum (x :: l)) with (x + sum l).
  change (length (x :: l)) with (S (length l)).
  rewrite IH, S_INR. lra.
Qed.

Lemma sq_nonneg (y : R) : 0 <= y * y.
Proof. nra. Qed.

Lemma sq_pos (y : R) : y <> 0 -> 0 < y * y.
Proof. nra. Qed.

Lemma sum_sq_nonneg (m : R) (l : list R) :
  0 <= sum (map (fun x => (x - m) * (x - m)) l).
Proof.
  unfold sum. induction l as [|x l IH]; simpl; [lra|].
  pose proof (sq_nonneg (x - m)). lra.
Qed.

Lemma sum_sq_ge_In (m a : R) (l : list R) :
  In a l -> (a - m) * (a - m) <= sum (map (fun x => (x - m) * (x - m)) l).
Proof.
  pose proof (sum_sq_nonneg m) as Hnn. unfold sum in *.
  induction l as [|x l IH]; simpl; [done|].
  pose proof (Hnn l) as Hl.
  intros [->|Hin].
  - lra.
  - specialize (IH Hin). pose proof (sq_nonneg (x - m)). lra.
Qed.

Lemma two_distinct_length (a b : R) (l : list R) :
  In a l -> In b l -> a <> b -> (2 <= length l)%nat.
Proof.
  destruct l as [|x [|y l]]; simpl; intros Ha Hb Hne; [done| |lia].
  destruct Ha as [<-|[]], Hb as [<-|[]]. done.
Qed.

Lemma var1_pos (a b : R) (l : list R) :
  In a l -> In b l -> a <> b -> 0 < var1 l.
Proof.
  intros Ha Hb Hne.
  pose proof (two_distinct_length a b l Ha Hb Hne) as Hlen.
  pose proof (sum_sq_ge_In (avg l) a l Ha) as Hsa.
  pose proof (sum_sq_ge_In (avg l) b l Hb) as Hsb.
  unfold var1. apply Rdiv_lt_0_compat.
  - destruct (Req_dec_T a (avg l)) as [Heq|Hneq].
    + assert (0 < (b - avg l) * (b - avg l)) by (apply sq_pos; lra). lra.
    + assert (0 < (a - avg l) * (a - avg l)) by (apply sq_pos; lra). lra.
  - apply lt_0_INR. lia.
Qed.

Lemma mean_std_defined (l : list R) :
  (2 <= length l)%nat -> mean l = Fin (avg l) /\ std l = Fin (sqrt (var1 l)).
Proof. destruct l as [|x [|y l]]; simpl; intros; (lia || done). Qed.

Lemma normalized_finite (m s x : R) :
  s <> 0 -> normalized (Fin m) (Fin s) x = Fin ((x - m) / s).
Proof.
  intros Hs. unfold normalized, fsub, fdiv.
  by destruct (Req_dec_T s 0).
Qed.

Lemma foreground_of_map (f : R -> fval) (volume : list R) :
  foreground_of volume (map f volume) = map f (List.filter gt0 volume).
Proof.
  unfold foreground_of. induction volume as [|x volume IH]; simpl; [done|].
  destruct (gt0 x); simpl; by rewrite IH.
Qed.

Lemma standardized_normalized (l : list R) :
  (2 <= length l)%nat -> 0 < var1 l ->
  standardized (map (fun x => Fin ((x - avg l) / sqrt (var1 l))) l).
Proof.
  intros Hlen Hvar.
  set (m := avg l). set (s := sqrt (var1 l)).
  assert (Hs : 0 < s) by (by apply sqrt_lt_R0).
  assert (Hss : s * s = var1 l) by (apply sqrt_sqrt; lra).
  assert (Hn : 0 < INR (length l)) by (apply lt_0_INR; lia).
  assert (Hn1 : 0 < INR (length l - 1)) by (apply lt_0_INR; lia).
  exists (map (fun x => (x - m) / s) l).
  assert (Havg : avg (map (fun x => (x - m) / s) l) = 0).
  { unfold avg. rewrite length_map.
    rewrite (sum_map_ext _ (fun x => / s * (x - m))) by (intros; field; lra).
    rewrite (sum_map_scale (/ s) (fun x => x - m)), sum_map_shift.
    unfold m, avg. field. lra. }
  split; [by rewrite map_map|]. split; [done|].
  unfold var1. rewrite Havg, length_map, map_map.
  rewrite (sum_map_ext _ (fun x => / (s * s) * ((x - m) * (x - m))))
    by (intros; field; lra).
  rewrite (sum_map_scale (/ (s * s)) (fun x => (x - m) * (x - m))).
  fold m in Hss.
  assert (Hv : sum (map (fun x => (x - m) * (x - m)) l)
               = s * s * INR (length l - 1)).
  { rewrite Hss. unfold var1, m. field. lra. }
  rewrite Hv. field. lra.
Qed.

(** A foreground of a single voxel has no deviation: [torch.std] of one
    value is [nan], and so is every voxel of [(volume - mean) / std]. *)
Example single_voxel_foreground_not_standardized :
  List.filter gt0 [2; 0] = [2]
  /\ normalized_volume [2; 0] = [NaN; NaN]
  /\ ~ standardized (foreground_of [2; 0] (normalized_volume [2; 0])).
Proof.
  assert (H2 : gt0 2 = true) by (apply gt0_true; lra).
  assert (H0 : gt0 0 = false) by (apply gt0_false; lra).
  assert (Hf : List.filter gt0 [2; 0] = [2]) by (simpl; by rewrite H2, H0).
  assert (Hn : normalized_volume [2; 0] = [NaN; NaN]).
  { unfold normalized_volume. rewrite Hf. reflexivity. }
  split; [done|]. split; [done|].
  rewrite Hn. unfold foreground_of. simpl. rewrite H2, H0. simpl.
  intros (rs & Hrs & _). by destruct rs.
Qed.

(** C5 (defect of the code): the volumetric preprocessing never returns the
    normalized volume.  For every volume whose foreground (the strictly
    positive voxels) holds at least two different values, the statements up
    to [out = (volume - mean) / std] compute what the claim says: the mean
    [m] and the deviation [s] (unbiased estimator, divisor [n - 1]) are
    taken over the strictly positive voxels only, [s] is positive, every
    voxel [x] is mapped to [(x - m) / s], and in exact arithmetic these
    values have mean zero and variance one over the foreground.  But the
    replacement of the zero voxels,
    [out[volume == 0] = out_random[volume == 0]], assigns a numpy array into
    a torch tensor: whatever the random draws, the call raises [TypeError]
    and returns nothing. *)
Theorem normalization_raises_TypeError (g : rng) (volume : list R) (a b : R) :
  In a volume -> In b volume -> 0 < a -> 0 < b -> a <> b ->
  let pixels := List.filter gt0 volume in
  let m := avg pixels in
  let s := sqrt (var1 pixels) in
  mean pixels = Fin m /\ std pixels = Fin s /\ 0 < s
  /\ normalized_volume volume = map (fun x => Fin ((x - m) / s)) volume
  /\ standardized (foreground_of volume (normalized_volume volume))
  /\ __itensity_normalize_one_volume__ g volume = Raise TypeError
  /\ ~ returns (__itensity_normalize_one_volume__ g volume).
Proof.
  intros Ha Hb Hpa Hpb Hne pixels m s.
  assert (Hina : In a pixels) by (apply filter_In; split; [done|by apply gt0_true]).
  assert (Hinb : In b pixels) by (apply filter_In; split; [done|by apply gt0_true]).
  pose proof (two_distinct_length a b pixels Hina Hinb Hne) as Hlen.
  pose proof (var1_pos a b pixels Hina Hinb Hne) as Hvar.
  destruct (mean_std_defined pixels Hlen) as [Hmean Hstd].
  assert (Hs : 0 < s) by (by apply sqrt_lt_R0).
  assert (Hnorm : normalized_volume volume = map (fun x => Fin ((x - m) / s)) volume).
  { unfold normalized_volume. fold pixels. rewrite Hmean, Hstd.
    apply map_ext. intros x. apply normalized_finite. fold s. lra. }
  split; [done|]. split; [done|]. split; [done|]. split; [done|].
  split.
  { rewrite Hnorm, foreground_of_map. fold pixels.
    by apply standardized_normalized. }
  rewrite itensity_normalize_raises. split; [done|]. by intros [out Hout].
Qed.

Lemma normalization_raises_TypeError_witness :
  standardized (foreground_of [1; 3; 0] (normalized_volume [1; 3; 0]))
  /\ __itensity_normalize_one_volume__ (fun k => INR k) [1; 3; 0]
     = Raise TypeError.
Proof.
  destruct (normalization_raises_TypeError (fun k => INR k) [1; 3; 0] 1 3)
    as (_ & _ & _ & _ & Hstd & Hraise & _).
  - simpl; auto.
  - simpl; auto.
  - lra.
  - lra.
  - lra.
  - split; [exact Hstd|exact Hraise].
Defined.

(** The volume [1; 3; 0]: the foreground [1; 3] has mean 2 and deviation
    [sqrt 2]. *)
Example normalized_volume_example :
  normalized_volume [1; 3; 0]
  = [Fin ((1 - 2) / sqrt 2); Fin ((3 - 2) / sqrt 2); Fin ((0 - 2) / sqrt 2)].
Proof.
  assert (H1 : gt0 1 = true) by (apply gt0_true; lra).
  assert (H3 : gt0 3 = true) by (apply gt0_true; lra).
  assert (H0 : gt0 0 = false) by (apply gt0_false; lra).
  assert (Havg : avg [1; 3] = 2) by (unfold avg, sum; simpl; lra).
  assert (Hvar : var1 [1; 3] = 2).
  { unfold var1. rewrite Havg. unfold sum. simpl. lra. }
  assert (Hs : sqrt 2 <> 0).
  { pose proof (sqrt_lt_R0 2). lra. }
  unfold normalized_volume. simpl. rewrite H1, H3, H0. simpl.
  rewrite Havg, Hvar. by rewrite !normalized_finite.
Qed.

End VolumetricProps.

(** ** The 2D-slice preprocessing *)

Section ImagenetProps.
Local Open Scope R_scope.

Lemma shape1_repeat (image : tensor4) :
  shape1 (repeat_1_3_1_1 image) = (3 * shape1 image)%nat.
Proof.
  unfold shape1, repeat_1_3_1_1. destruct image as [|channels image]; simpl; [done|].
  rewrite !length_app. lia.
Qed.

(** Whatever the number of channels, the replication statement triples it:
    the guard [if image.shape[1]:] holds for every non-empty channel axis. *)
Lemma replicate_channels_triples (image : tensor4) :
  shape1 (replicate_channels image) = (3 * shape1 image)%nat.
Proof.
  unfold replicate_channels.
  destruct (shape1 image =? 0)%nat eqn:Hc; simpl.
  - apply Nat.eqb_eq in Hc. lia.
  - apply shape1_repeat.
Qed.

(** C2 (defect of the code): the comment above the statement reads "If input
    has just 1 channel, repeat channel to have 3 channels", but the guard
    tests [image.shape[1]] for being non-zero, not for being one.  A
    single-channel image gets three channels, as the claim says; an image
    that already has three channels [r; g; b] does not keep three: the
    statement turns it into the nine channels [r; g; b; r; g; b; r; g; b]. *)
Theorem replicate_channels_of_three (r g b : plane) :
  shape1 [[r; g; b]] = 3%nat
  /\ replicate_channels [[r; g; b]] = [[r; g; b; r; g; b; r; g; b]]
  /\ shape1 (replicate_channels [[r; g; b]]) = 9%nat
  /\ (forall c : plane, shape1 (replicate_channels [[c]]) = 3%nat).
Proof. repeat split. Qed.

(** The next statement, [image[:, [2, 1, 0], ...]], reads the channels 2, 1
    and 0 only, so the model receives the same three planes as it would
    without the replication. *)
Lemma rgb_to_bgr_after_replication (r g b : plane) :
  rgb_to_bgr (replicate_channels [[r; g; b]]) = Ok [[b; g; r]]
  /\ rgb_to_bgr [[r; g; b]] = Ok [[b; g; r]].
Proof. split; reflexivity. Qed.

End ImagenetProps.

(** ** Paths of the record files *)

Section PathProps.

Lemma string_length_app (s t : string) :
  String.length (s +:+ t) = String.length s + String.length t.
Proof. induction s as [|c s IH]; simpl; [done|]. unfold String.app in *. simpl. by rewrite IH. Qed.

Lemma string_app_inj_r (t s1 s2 : string) : s1 +:+ t = s2 +:+ t -> s1 = s2.
Proof.
  revert s2. induction s1 as [|c s1 IH]; intros [|c' s2] Heq.
  - done.
  - apply (f_equal String.length) in Heq.
    rewrite !string_length_app in Heq. simpl in Heq. lia.
  - apply (f_equal String.length) in Heq.
    rewrite !string_length_app in Heq. simpl in Heq. lia.
  - injection Heq as -> Heq. f_equal. by apply IH.
Qed.

Lemma feat_name_inj (i j : nat) : feat_name i = feat_name j -> i = j.
Proof.
  unfold feat_name. intros Heq.
  apply (inj (String.app "feat_")) in Heq.
  apply string_app_inj_r in Heq.
  by apply (inj pretty) in Heq.
Qed.

Lemma feat_name_relative (i : nat) : starts_with_sep (feat_name i) = false.
Proof. reflexivity. Qed.

(** Distinct positions have distinct record files in a directory. *)
Lemma save_path_inj (dest_dir : string) (i j : nat) :
  save_path dest_dir i = save_path dest_dir j -> i = j.
Proof.
  unfold save_path, os_path_join. rewrite !feat_name_relative.
  destruct (bool_decide (dest_dir = "") || ends_with_sep dest_dir); intros Heq.
  - apply (inj (String.app dest_dir)) in Heq. by apply feat_name_inj.
  - apply (inj (String.app dest_dir)) in Heq.
    apply (inj (String.app "/")) in Heq. by apply feat_name_inj.
Qed.

Example save_path_example : save_path "feats/real" 12 = "feats/real/feat_12.npz".
Proof. reflexivity. Qed.

End PathProps.

(** ** The Feature Cache Manager *)

Section CacheProps.
Context {embedding Age Sex : Type}.

Local Abbreviation sample := (sample Age Sex).
Local Abbreviation npz := (npz embedding Age Sex).
Local Abbreviation world := (world embedding Age Sex).

Implicit Types (w : world) (data : sample) (dest_dir : string).

Lemma enumerate_from_0 {A : Type} (l : list A) : enumerate l = enumerate_from 0 l.
Proof. reflexivity. Qed.

Lemma enumerate_from_cons {A : Type} (k : nat) (x : A) (l : list A) :
  enumerate_from k (x :: l) = (k, x) :: enumerate_from (S k) l.
Proof. reflexivity. Qed.

Lemma enumerate_from_In {A : Type} (k : nat) (l : list A) (j : nat) (x : A) :
  In (j, x) (enumerate_from k l) -> k <= j.
Proof.
  unfold enumerate_from. intros Hin. apply in_combine_l in Hin.
  apply in_seq in Hin. lia.
Qed.

Lemma os_path_exists_true w path :
  os_path_exists w path = true <-> is_Some (fs w !! path).
Proof. unfold os_path_exists. apply bool_decide_eq_true. Qed.

Lemma savez_calls_snoc (m : gmap string npz) (g : rng) w path (content : npz) :
  savez_calls (World m g (trace w ++ [Inference; Savez path content]))
  = savez_calls w ++ [(path, content)].
Proof. unfold savez_calls. simpl. by rewrite flat_map_app. Qed.

Lemma inference_calls_snoc (m : gmap string npz) (g : rng) w path (content : npz) :
  inference_calls (World m g (trace w ++ [Inference; Savez path content]))
  = S (inference_calls w).
Proof.
  unfold inference_calls. simpl. rewrite List.filter_app, length_app. simpl. lia.
Qed.

(** *** A loop body that caches *)

(** What the two loop bodies have in common: a successful iteration either
    leaves the state alone or adds the record file of its position, and an
    iteration that succeeded once is skipped, state untouched, whenever it
    runs with [skip_existing] set in a state where its file exists. *)
Section Rerun.

Variable body : string -> bool -> world -> nat * sample -> result world.

Hypothesis body_fs : forall dest_dir skip w i data w',
  body dest_dir skip w (i, data) = Ok w' ->
  is_Some (fs w' !! save_path dest_dir i)
  /\ (forall path, is_Some (fs w !! path) -> is_Some (fs w' !! path)).

Hypothesis body_rerun : forall dest_dir skip w i data w',
  body dest_dir skip w (i, data) = Ok w' ->
  forall w2, os_path_exists w2 (save_path dest_dir i) = true ->
             body dest_dir true w2 (i, data) = Ok w2.

Lemma rerun_from dest_dir skip (loader : list sample) : forall k w w',
  for_each (body dest_dir skip) (enumerate_from k loader) w = Ok w' ->
  (forall path, is_Some (fs w !! path) -> is_Some (fs w' !! path))
  /\ (forall w2, (forall path, is_Some (fs w' !! path) -> is_Some (fs w2 !! path)) ->
                for_each (body dest_dir true) (enumerate_from k loader) w2 = Ok w2).
Proof.
  induction loader as [|data loader IH]; intros k w w' Hrun.
  - simpl in Hrun. injection Hrun as <-. split; [done|]. by intros w2 _.
  - rewrite enumerate_from_cons in *. simpl in Hrun.
    destruct (body dest_dir skip w (k, data)) as [w1|e] eqn:Hbody; [|done].
    simpl in Hrun.
    destruct (body_fs _ _ _ _ _ _ Hbody) as [Hfile Hmono1].
    destruct (IH _ _ _ Hrun) as [Hmono Hre].
    split; [by auto|].
    intros w2 Hw2. simpl.
    rewrite (body_rerun _ _ _ _ _ _ Hbody w2).
    + simpl. by apply Hre.
    + apply os_path_exists_true. auto.
Qed.

Lemma rerun_noop dest_dir skip (loader : list sample) w w1 :
  for_each (body dest_dir skip) (enumerate loader) w = Ok w1 ->
  for_each (body dest_dir true) (enumerate loader) w1 = Ok w1.
Proof.
  intros Hrun. rewrite enumerate_from_0 in *.
  destruct (rerun_from _ _ _ _ _ _ Hrun) as [_ Hre]. by apply Hre.
Qed.

End Rerun.

(** *** The volumetric loop body *)

Section MedicalnetProps.
Import Tensor Volumetric.

Variable feature_extractor : dense fval -> list embedding.

Lemma medicalnet_body_skipped dest_dir skip w i data :
  skipped skip w dest_dir i = true ->
  medicalnet_body feature_extractor dest_dir skip w (i, data) = Ok w.
Proof. unfold skipped, medicalnet_body. by intros ->. Qed.

(** A sample that is not skipped is normalized first, and the normalization
    raises: the backbone is not called and [np.savez] is not reached. *)
Lemma medicalnet_body_raises dest_dir skip w i data :
  skipped skip w dest_dir i = false ->
  medicalnet_body feature_extractor dest_dir skip w (i, data) = Raise TypeError.
Proof. unfold skipped, medicalnet_body. by intros ->. Qed.

Lemma medicalnet_body_ok dest_dir skip w i data w' :
  medicalnet_body feature_extractor dest_dir skip w (i, data) = Ok w' ->
  skipped skip w dest_dir i = true /\ w' = w.
Proof.
  destruct (skipped skip w dest_dir i) eqn:Hskip.
  - rewrite medicalnet_body_skipped by done. by intros [= <-].
  - by rewrite medicalnet_body_raises.
Qed.

Lemma medicalnet_body_fs dest_dir skip w i data w' :
  medicalnet_body feature_extractor dest_dir skip w (i, data) = Ok w' ->
  is_Some (fs w' !! save_path dest_dir i)
  /\ (forall path, is_Some (fs w !! path) -> is_Some (fs w' !! path)).
Proof.
  intros Hbody. apply medicalnet_body_ok in Hbody as [Hskip ->].
  split; [|done].
  apply andb_true_iff in Hskip as [_ Hex]. by apply os_path_exists_true.
Qed.

Lemma medicalnet_body_rerun dest_dir skip w i data w' :
  medicalnet_body feature_extractor dest_dir skip w (i, data) = Ok w' ->
  forall w2, os_path_exists w2 (save_path dest_dir i) = true ->
             medicalnet_body feature_extractor dest_dir true w2 (i, data) = Ok w2.
Proof. intros _ w2 Hex. apply medicalnet_body_skipped. unfold skipped. by rewrite Hex. Qed.

Lemma getitem0_nonempty (l : list embedding) : l <> [] -> exists e, getitem0 l = Ok e.
Proof. destruct l as [|e l]; [done|]. by exists e. Qed.

Lemma skipped_insert_ne skip w dest_dir i j (g : rng) (content : npz) tr :
  i <> j ->
  skipped skip (World (<[save_path dest_dir i := content]> (fs w)) g tr) dest_dir j
  = skipped skip w dest_dir j.
Proof.
  intros Hne. unfold skipped, os_path_exists. simpl.
  rewrite lookup_insert_ne; [done|].
  intros Heq. by apply save_path_inj in Heq.
Qed.

(** The whole loop, started at position [k] in state [w]: it stops, with the
    [TypeError], at the first sample that is not skipped. *)
Lemma medicalnet_run_raises_from dest_dir skip (loader : list sample) :
  forall k w i,
    k <= i < k + length loader ->
    skipped skip w dest_dir i = false ->
    for_each (medicalnet_body feature_extractor dest_dir skip)
             (enumerate_from k loader) w = Raise TypeError.
Proof.
  induction loader as [|data loader IH]; intros k w i Hi Hskip.
  - simpl in Hi. lia.
  - rewrite enumerate_from_cons. cbn [for_each].
    destruct (skipped skip w dest_dir k) eqn:Hk.
    + rewrite medicalnet_body_skipped by done. simpl.
      apply (IH (S k) w i); [|done].
      assert (i <> k) by congruence. simpl in Hi. lia.
    + by rewrite medicalnet_body_raises.
Qed.

(** A loop that completes has skipped every sample and changed nothing. *)
Lemma medicalnet_run_ok_from dest_dir skip (loader : list sample) :
  forall k w w',
    for_each (medicalnet_body feature_extractor dest_dir skip)
             (enumerate_from k loader) w = Ok w' ->
    w' = w
    /\ forall i, k <= i < k + length loader -> skipped skip w dest_dir i = true.
Proof.
  induction loader as [|data loader IH]; intros k w w' Hrun.
  - simpl in Hrun. injection Hrun as <-. split; [done|]. simpl. lia.
  - rewrite enumerate_from_cons in Hrun. cbn [for_each] in Hrun.
    destruct (medicalnet_body feature_extractor dest_dir skip w (k, data))
      as [w1|e] eqn:Hbody; [|done].
    apply medicalnet_body_ok in Hbody as [Hk ->]. simpl in Hrun.
    destruct (IH _ _ _ Hrun) as [-> Hall]. split; [done|].
    intros i Hi. destruct (decide (i = k)) as [->|Hne]; [done|].
    apply Hall. simpl in Hi. lia.
Qed.

End MedicalnetProps.

(** *** The 2D loop body *)

Section ImagenetBodyProps.

Variable feature_extractor : tensor4 -> list embedding.

Lemma imagenet_body_fs dest_dir skip w i data w' :
  imagenet_body feature_extractor dest_dir skip w (i, data) = Ok w' ->
  is_Some (fs w' !! save_path dest_dir i)
  /\ (forall path, is_Some (fs w !! path) -> is_Some (fs w' !! path)).
Proof.
  unfold imagenet_body.
  destruct (central_slice (image data)) as [slice|e]; simpl; [|done].
  destruct (skip && os_path_exists w (save_path dest_dir i)) eqn:Hskip.
  - intros [= <-]. split; [|done].
    apply andb_true_iff in Hskip as [_ Hex]. by apply os_path_exists_true.
  - destruct (_get_imagenet_features feature_extractor slice) as [feat|e];
      simpl; [|done].
    destruct (getitem0 feat) as [feat0|e]; simpl; [|done].
    intros [= <-]. simpl. split; [by rewrite lookup_insert_eq|].
    intros path Hpath. rewrite lookup_insert. by case_decide.
Qed.

Lemma imagenet_body_rerun dest_dir skip w i data w' :
  imagenet_body feature_extractor dest_dir skip w (i, data) = Ok w' ->
  forall w2, os_path_exists w2 (save_path dest_dir i) = true ->
             imagenet_body feature_extractor dest_dir true w2 (i, data) = Ok w2.
Proof.
  unfold imagenet_body.
  destruct (central_slice (image data)) as [slice|e]; simpl; [|done].
  intros _ w2 ->. done.
Qed.

End ImagenetBodyProps.

(** *** Positions, records and resumption *)

(** [enumerate] pairs every sample with its 0-based position. *)
Lemma enumerate_position {A : Type} (l : list A) (i : nat) (x : A) :
  In (i, x) (enumerate l) <-> l !! i = Some x.
Proof.
  rewrite enumerate_from_0.
  assert (H : forall k, In (i, x) (enumerate_from k l)
                        <-> k <= i /\ l !! (i - k) = Some x).
  { induction l as [|y l IH]; intros k.
    - simpl. split; [done|]. by intros [_ ?].
    - rewrite enumerate_from_cons. simpl. rewrite IH. split.
      + intros [[= -> ->]|[Hk Hl]].
        * split; [lia|]. by rewrite Nat.sub_diag.
        * split; [lia|]. by replace (i - k) with (S (i - S k)) by lia.
      + intros [Hk Hl]. destruct (decide (i = k)) as [->|Hne].
        * left. rewrite Nat.sub_diag in Hl. simpl in Hl. by injection Hl as ->.
        * right. split; [lia|].
          by replace (i - k) with (S (i - S k)) in Hl by lia. }
  rewrite H, Nat.sub_0_r. split; [by intros [_ ?]|]. split; [lia|done].
Qed.

(** C8 (defect of the code): the volumetric extraction writes no record
    for a sample that is not skipped.  Whenever the sample at some 0-based
    position [i] of the loader is not skipped, the run raises the
    [TypeError] of the normalization and returns nothing: the loop stops at
    the first such sample, before the backbone is called and before
    [np.savez] writes [feat_<i>.npz]; and a run that does complete has
    called [np.savez] not once. *)
Theorem volumetric_extraction_raises_TypeError
    (feature_extractor : dense Tensor.fval -> list embedding)
    (loader : list sample) dest_dir (skip_existing : bool) w (i : nat) :
  i < length loader ->
  skipped skip_existing w dest_dir i = false ->
  _extract_medicalnet_features_to_dir feature_extractor loader dest_dir
                                      skip_existing w = Raise TypeError
  /\ forall (other : list sample) w',
       _extract_medicalnet_features_to_dir feature_extractor other dest_dir
                                           skip_existing w = Ok w' ->
       savez_calls w' = savez_calls w /\ fs w' = fs w.
Proof.
  intros Hi Hskip. split.
  - unfold _extract_medicalnet_features_to_dir. rewrite enumerate_from_0.
    apply (medicalnet_run_raises_from _ _ _ _ 0 w i); [lia|done].
  - intros other w' Hrun.
    unfold _extract_medicalnet_features_to_dir in Hrun.
    rewrite enumerate_from_0 in Hrun.
    by apply medicalnet_run_ok_from in Hrun as [-> _].
Qed.

(** C4: when an extraction run over a loader has completed, running it again
    over the same loader with [skip_existing] set completes too, calls the
    feature extractor not once more, writes nothing, and leaves the file
    system as it was; this holds for the volumetric and for the 2D
    extraction. *)
Theorem rerun_skip_existing_is_noop
    (medicalnet : dense Tensor.fval -> list embedding)
    (imagenet : tensor4 -> list embedding)
    (loader : list sample) dest_dir (skip_existing : bool) w w1 :
  (_extract_medicalnet_features_to_dir medicalnet loader dest_dir skip_existing w
   = Ok w1 ->
   exists w2,
     _extract_medicalnet_features_to_dir medicalnet loader dest_dir true w1 = Ok w2
     /\ inference_calls w2 = inference_calls w1
     /\ savez_calls w2 = savez_calls w1
     /\ fs w2 = fs w1)
  /\ (_extract_imagenet_features_to_dir imagenet loader dest_dir skip_existing w
      = Ok w1 ->
      exists w2,
        _extract_imagenet_features_to_dir imagenet loader dest_dir true w1 = Ok w2
        /\ inference_calls w2 = inference_calls w1
        /\ savez_calls w2 = savez_calls w1
        /\ fs w2 = fs w1).
Proof.
  split; intros Hrun; exists w1; (split; [|done]).
  - eapply (rerun_noop (medicalnet_body medicalnet)); [| |exact Hrun].
    + apply medicalnet_body_fs.
    + apply medicalnet_body_rerun.
  - eapply (rerun_noop (imagenet_body imagenet)); [| |exact Hrun].
    + apply imagenet_body_fs.
    + apply imagenet_body_rerun.
Qed.

End CacheProps.

(** *** The properties on the example data *)

Lemma volumetric_extraction_raises_TypeError_witness :
  _extract_medicalnet_features_to_dir example_medicalnet [example_sample]
                                      "cache" false example_world
  = Raise TypeError.
Proof.
  apply (volumetric_extraction_raises_TypeError example_medicalnet
           [example_sample] "cache" false example_world 0).
  - simpl. lia.
  - reflexivity.
Defined.

Lemma example_imagenet_run :
  _extract_imagenet_features_to_dir example_imagenet [example_sample] "cache"
                                    false example_world
  = Ok (World {[ "cache/feat_0.npz" := Npz 7%nat 63%nat true ]} (fun _ => 0%R)
              [Inference; Savez "cache/feat_0.npz" (Npz 7%nat 63%nat true)]).
Proof. reflexivity. Qed.

(** With [skip_existing] and the record of position 0 in place, the
    volumetric run skips its only sample. *)
Lemma example_medicalnet_skip_run :
  _extract_medicalnet_features_to_dir example_medicalnet [example_sample] "cache"
                                      true example_cached_world
  = Ok example_cached_world.
Proof. reflexivity. Qed.

Lemma rerun_skip_existing_is_noop_witness :
  (exists w1 w2,
     _extract_medicalnet_features_to_dir example_medicalnet [example_sample]
                                         "cache" true example_cached_world = Ok w1
     /\ _extract_medicalnet_features_to_dir example_medicalnet [example_sample]
                                            "cache" true w1 = Ok w2
     /\ inference_calls w2 = inference_calls w1
     /\ fs w2 = fs w1)
  /\ (exists w1 w2,
        _extract_imagenet_features_to_dir example_imagenet [example_sample]
                                          "cache" false example_world = Ok w1
        /\ _extract_imagenet_features_to_dir example_imagenet [example_sample]
                                             "cache" true w1 = Ok w2
        /\ inference_calls w2 = inference_calls w1
        /\ fs w2 = fs w1).
Proof.
  split.
  - pose proof example_medicalnet_skip_run as Hrun.
    destruct (rerun_skip_existing_is_noop example_medicalnet example_imagenet
                [example_sample] "cache" true example_cached_world
                example_cached_world) as [Hmed _].
    destruct (Hmed Hrun) as (w2 & Hre & Hinf & _ & Hfs).
    by exists example_cached_world, w2.
  - pose proof example_imagenet_run as Hrun.
    match type of Hrun with _ = Ok ?w => set (w1 := w) in * end.
    destruct (rerun_skip_existing_is_noop example_medicalnet example_imagenet
                [example_sample] "cache" false example_world w1) as [_ Himg].
    destruct (Himg Hrun) as (w2 & Hre & Hinf & _ & Hfs).
    by exists w1, w2.
Defined.

(** ** The Pairwise Similarity Sampler *)

Section MsssimProps.
Import Msssim.
Local Open Scope R_scope.

Context {vol : Type}.
Variable msssim : vol -> vol -> R.

Local Abbreviation similarity := (similarity msssim).
Local Abbreviation accumulate := Msssim.accumulate.

Lemma accumulate_full (N : Z) (sims : list R) (st : R * Z) :
  (N <= st.2)%Z -> accumulate N sims st = st.
Proof.
  intros Hfull. destruct sims as [|s sims]; simpl; [done|].
  by rewrite (proj2 (Z.leb_le _ _) Hfull).
Qed.

Lemma accumulate_app (N : Z) (a b : list R) : forall st,
  accumulate N (a ++ b) st = accumulate N b (accumulate N a st).
Proof.
  induction a as [|s a IH]; intros st; simpl; [done|].
  destruct (N <=? st.2)%Z eqn:Hfull.
  - apply Z.leb_le in Hfull. by rewrite accumulate_full.
  - apply IH.
Qed.

Lemma inner_loop_accumulate (N : Z) (loader : list vol) (i : nat) (data1 : vol) :
  forall (k : nat) (js : list vol) (st : R * Z),
  inner_loop msssim N i data1 (enumerate_from k js) st
  = accumulate N
      (map similarity
           (flat_map (fun y => if bool_decide (i ≠ y.1)
                               then [((i, y.1), (data1, y.2))] else [])
                     (enumerate_from k js)))
      st.
Proof.
  intros k js. revert k. induction js as [|data2 js IH]; intros k st; [done|].
  rewrite enumerate_from_cons. cbn [inner_loop flat_map fst snd].
  destruct (N <=? st.2)%Z eqn:Hfull.
  - apply Z.leb_le in Hfull. by rewrite accumulate_full.
  - destruct (bool_decide (i ≠ k)); simpl; rewrite ?Hfull; apply IH.
Qed.

Lemma outer_loop_accumulate (N : Z) (loader : list vol) :
  forall (outer : list (nat * vol)) (st : R * Z),
  outer_loop msssim N loader outer st
  = accumulate N (map similarity (flat_map (pairs_from loader) outer)) st.
Proof.
  unfold outer_loop.
  induction outer as [|[i data1] outer IH]; intros st; simpl; [done|].
  rewrite IH, map_app, accumulate_app. f_equal.
  rewrite enumerate_from_0. apply (inner_loop_accumulate N loader).
Qed.

Lemma accumulate_firstn (N : Z) (sims : list R) : forall st : R * Z,
  let room := Z.to_nat (N - st.2) in
  accumulate N sims st
  = (fold_left Rplus (firstn room sims) st.1,
     (st.2 + Z.of_nat (length (firstn room sims)))%Z).
Proof.
  induction sims as [|s sims IH]; intros [tot count]; simpl.
  - rewrite firstn_nil. simpl. f_equal. lia.
  - destruct (N <=? count)%Z eqn:Hfull.
    + apply Z.leb_le in Hfull.
      replace (Z.to_nat (N - count)) with 0%nat by lia. simpl. f_equal. lia.
    + apply Z.leb_gt in Hfull.
      replace (Z.to_nat (N - count)) with (S (Z.to_nat (N - (count + 1)))) by lia.
      rewrite IH. simpl. f_equal. lia.
Qed.

(** The state in which the two loops end. *)
Lemma loops_end (loader : list vol) (N : Z) :
  let sims := map similarity (firstn (Z.to_nat N) (ordered_pairs loader)) in
  outer_loop msssim N loader (enumerate loader) (0, 0%Z)
  = (running_sum sims, Z.of_nat (length sims)).
Proof.
  simpl. rewrite outer_loop_accumulate, accumulate_firstn. simpl.
  rewrite Z.sub_0_r. fold (ordered_pairs loader).
  by rewrite <- firstn_map.
Qed.

Lemma flat_map_length_const {A B : Type} (f : A -> list B) (c : nat) (xs : list A) :
  (forall x, In x xs -> length (f x) = c) ->
  length (flat_map f xs) = (length xs * c)%nat.
Proof.
  induction xs as [|x xs IH]; intros Hc; simpl; [done|].
  rewrite length_app, Hc by (by left). rewrite IH; [done|].
  intros y Hy. apply Hc. by right.
Qed.

Lemma map_fst_flat_map {A B C : Type} (f : A -> list (B * C)) (xs : list A) :
  map fst (flat_map f xs) = flat_map (fun x => map fst (f x)) xs.
Proof. induction xs as [|x xs IH]; simpl; [done|]. by rewrite map_app, IH. Qed.

Lemma flat_map_enumerate_from {A B : Type} (h : nat -> list B) (l : list A) :
  forall k, flat_map (fun y => h y.1) (enumerate_from k l) = flat_map h (seq k (length l)).
Proof.
  induction l as [|x l IH]; intros k; [done|].
  rewrite enumerate_from_cons. simpl. by rewrite IH.
Qed.

Lemma flat_map_ext_in {A B : Type} (f h : A -> list B) (xs : list A) :
  (forall x, In x xs -> f x = h x) -> flat_map f xs = flat_map h xs.
Proof.
  induction xs as [|x xs IH]; intros Hext; simpl; [done|].
  rewrite Hext by (by left). rewrite IH; [done|].
  intros y Hy. apply Hext. by right.
Qed.

Lemma length_enumerate_from {A : Type} (k : nat) (l : list A) :
  length (enumerate_from k l) = length l.
Proof. unfold enumerate_from. rewrite length_combine, length_seq. lia. Qed.

Lemma pairs_from_length (i : nat) (data1 : vol) (js : list vol) : forall k,
  length (flat_map (fun y => if bool_decide (i ≠ y.1)
                             then [((i, y.1), (data1, y.2))] else [])
                   (enumerate_from k js))
  = (length js - (if decide (k <= i < k + length js)%nat then 1 else 0))%nat.
Proof.
  induction js as [|data2 js IH]; intros k.
  - simpl. lia.
  - rewrite enumerate_from_cons. cbn [flat_map fst snd]. rewrite length_app, IH.
    cbn [length].
    destruct (bool_decide (i ≠ k)) eqn:Hik.
    + apply bool_decide_eq_true in Hik. simpl. repeat case_decide; lia.
    + apply bool_decide_eq_false in Hik. simpl. repeat case_decide; lia.
Qed.

(** There are [n * (n - 1)] ordered pairs of distinct positions. *)
Lemma length_ordered_pairs (loader : list vol) :
  length (ordered_pairs loader) = (length loader * (length loader - 1))%nat.
Proof.
  unfold ordered_pairs.
  rewrite (flat_map_length_const _ (length loader - 1)).
  - by rewrite enumerate_from_0, length_enumerate_from.
  - intros [i data1] Hin. unfold pairs_from. rewrite enumerate_from_0.
    cbn [fst snd]. rewrite pairs_from_length.
    apply enumerate_position, lookup_lt_Some in Hin.
    case_decide; lia.
Qed.

(** Their positions are the index pairs in lexicographic order. *)
Lemma ordered_pairs_indices (loader : list vol) :
  map fst (ordered_pairs loader) = distinct_index_pairs (length loader).
Proof.
  unfold ordered_pairs, distinct_index_pairs.
  rewrite map_fst_flat_map, enumerate_from_0.
  rewrite <- (flat_map_enumerate_from
                (fun i => flat_map (fun j => if bool_decide (i ≠ j) then [(i, j)] else [])
                                   (seq 0 (length loader)))).
  apply flat_map_ext_in. intros [i data1] _. unfold pairs_from. cbn [fst snd].
  rewrite map_fst_flat_map, enumerate_from_0.
  rewrite <- (flat_map_enumerate_from
                (fun j => if bool_decide (i ≠ j) then [(i, j)] else [])).
  apply flat_map_ext_in. intros [j data2] _. cbn [fst snd].
  by destruct (bool_decide (i ≠ j)).
Qed.

Lemma firstn_min_length {A : Type} (m : nat) (l : list A) :
  firstn (Nat.min m (length l)) l = firstn m l.
Proof.
  destruct (Nat.le_gt_cases m (length l)) as [Hle|Hgt].
  - by rewrite Nat.min_l.
  - rewrite Nat.min_r by lia. rewrite !firstn_all2; (done || lia).
Qed.

Lemma final_count (loader : list vol) (N : Z) :
  let n := length loader in
  length (map similarity (firstn (Z.to_nat N) (ordered_pairs loader)))
  = Nat.min (Z.to_nat N) (n * (n - 1)).
Proof. simpl. by rewrite length_map, length_firstn, length_ordered_pairs. Qed.

(** C6: for a loader of [n >= 2] samples and a budget [N >= 1], the ordered
    pairs of distinct positions are visited in lexicographic order (for each
    [i] in order, for each [j] in order, skipping [i = j]); accumulation
    stops once [count >= N]; and the function returns the arithmetic mean of
    the similarities of the first [min(N, n * (n - 1))] of these pairs. *)
Theorem compute_pairwise_msssim_mean (loader : list vol) (N : Z) :
  (2 <= length loader)%nat -> (1 <= N)%Z ->
  let n := length loader in
  let k := Nat.min (Z.to_nat N) (n * (n - 1)) in
  let visited := firstn k (ordered_pairs loader) in
  map fst (ordered_pairs loader) = distinct_index_pairs n
  /\ length (ordered_pairs loader) = (n * (n - 1))%nat
  /\ length visited = k
  /\ outer_loop msssim N loader (enumerate loader) (0, 0%Z)
     = (running_sum (map similarity visited), Z.of_nat k)
  /\ compute_pairwise_msssim msssim loader N
     = Ok (arithmetic_mean (map similarity visited)).
Proof.
  intros Hn HN n k visited.
  pose proof (length_ordered_pairs loader) as Hlen. fold n in Hlen.
  assert (Hvisited : visited = firstn (Z.to_nat N) (ordered_pairs loader)).
  { unfold visited, k. rewrite <- Hlen. apply firstn_min_length. }
  assert (Hk : length visited = k).
  { unfold visited. rewrite length_firstn, Hlen. unfold k. lia. }
  assert (Hpos : (1 <= k)%nat).
  { unfold k. assert (2 <= n * (n - 1))%nat by (unfold n; nia). lia. }
  pose proof (loops_end loader N) as Hend. simpl in Hend.
  rewrite <- Hvisited, length_map, Hk in Hend.
  split; [apply ordered_pairs_indices|]. split; [done|]. split; [done|].
  split; [done|].
  unfold compute_pairwise_msssim. rewrite Hend. cbn [fst snd].
  destruct (Z.of_nat k =? 0)%Z eqn:Hz; [apply Z.eqb_eq in Hz; lia|].
  unfold arithmetic_mean. by rewrite length_map, Hk, INR_IZR_INZ.
Qed.

(** C3 (amended): called with a budget [N <= 0] (so with [sample_budget = 0])
    or on a loader with fewer than two samples, [count] is still zero after
    the loops and the final division [tot_metric / count] is performed
    unguarded: the call raises Python's [ZeroDivisionError]; it does not
    return, and it raises no [DegenerateInputError]. *)
Theorem zero_count_raises_zero_division (loader : list vol) (N : Z) :
  (N <= 0)%Z \/ (length loader < 2)%nat ->
  (outer_loop msssim N loader (enumerate loader) (0, 0%Z)).2 = 0%Z
  /\ raises (compute_pairwise_msssim msssim loader N) ZeroDivisionError
  /\ ~ returns (compute_pairwise_msssim msssim loader N)
  /\ ~ raises (compute_pairwise_msssim msssim loader N) DegenerateInputError.
Proof.
  intros Hzero.
  pose proof (loops_end loader N) as Hend. simpl in Hend.
  pose proof (final_count loader N) as Hcount. simpl in Hcount.
  rewrite Hcount in Hend.
  assert (Hk : Nat.min (Z.to_nat N) (length loader * (length loader - 1)) = 0%nat).
  { destruct Hzero as [HN|Hn]; [lia|].
    assert (length loader * (length loader - 1) = 0)%nat by nia. lia. }
  rewrite Hk in Hend.
  assert (Hraise : compute_pairwise_msssim msssim loader N = Raise ZeroDivisionError).
  { unfold compute_pairwise_msssim. by rewrite Hend. }
  unfold raises, returns. rewrite Hraise, Hend.
  split; [done|]. split; [done|]. split; [by intros [a ?]|done].
Qed.

End MsssimProps.

(** C3, as stated, fails: with a budget of zero, and on a loader of one
    sample, the division by the zero [count] is performed and raises
    [ZeroDivisionError]; the call neither returns nor raises
    [DegenerateInputError]. *)
Lemma zero_budget_divides_by_zero :
  Msssim.compute_pairwise_msssim (fun a b : nat => INR (a + b)) [1; 2]%nat 0
  = Raise ZeroDivisionError
  /\ Msssim.compute_pairwise_msssim (fun a b : nat => INR (a + b)) [1]%nat 1000
     = Raise ZeroDivisionError
  /\ ~ raises (Msssim.compute_pairwise_msssim (fun a b : nat => INR (a + b))
                                              [1]%nat 1000)
              DegenerateInputError.
Proof. split; [reflexivity|]. split; [reflexivity|]. unfold raises. done. Qed.

Lemma zero_count_raises_zero_division_witness :
  raises (Msssim.compute_pairwise_msssim (fun a b : nat => INR (a + b)) [1; 2]%nat 0)
         ZeroDivisionError.
Proof.
  apply (zero_count_raises_zero_division (fun a b : nat => INR (a + b)) [1; 2]%nat 0).
  left. lia.
Defined.

Lemma compute_pairwise_msssim_mean_witness :
  Msssim.compute_pairwise_msssim (fun a b : nat => INR (a + b)) [1; 2; 3]%nat 4
  = Ok (Msssim.arithmetic_mean
          (map (Msssim.similarity (fun a b : nat => INR (a + b)))
               (firstn 4 (Msssim.ordered_pairs [1; 2; 3]%nat)))).
Proof.
  apply (compute_pairwise_msssim_mean (fun a b : nat => INR (a + b)) [1; 2; 3]%nat 4).
  - simpl. lia.
  - lia.
Defined.

(** With exactly two samples and a budget of one, the result is the
    similarity of the single pair (0, 1). *)
Example two_samples_budget_one (msssim : nat -> nat -> R) (a b : nat) :
  Msssim.compute_pairwise_msssim msssim [a; b] 1 = Ok ((0 + msssim a b) / 1)%R.
Proof. reflexivity. Qed.

(** ** The Distributional Distance Estimator *)

Section FrechetProps.
Import Frechet.
Local Open Scope R_scope.

Variable d : nat.
Variable sqrtm : matrix -> matrix.

Lemma sum_Permutation (l l' : list R) : Permutation l l' -> Tensor.sum l = Tensor.sum l'.
Proof.
  unfold Tensor.sum. induction 1 as [|x l l' _ IH|x y l|l l' l'' _ IH1 _ IH2]; simpl.
  - done.
  - by rewrite IH.
  - lra.
  - by rewrite IH1.
Qed.

Lemma sum_map_Permutation {A : Type} (f : A -> R) (l l' : list A) :
  Permutation l l' -> Tensor.sum (map f l) = Tensor.sum (map f l').
Proof. intros Hperm. apply sum_Permutation. by apply Permutation_map. Qed.

(** The mean vector does not depend on the order of the rows. *)
Lemma mu_Permutation (X X' : matrix) : Permutation X X' -> mu d X = mu d X'.
Proof.
  intros Hperm. unfold mu, column.
  rewrite (Permutation_length Hperm).
  apply map_ext. intros j. by rewrite (sum_map_Permutation _ X X').
Qed.

(** Nor does the covariance matrix. *)
Lemma sigma_Permutation (X X' : matrix) : Permutation X X' -> sigma d X = sigma d X'.
Proof.
  intros Hperm. unfold sigma, tabulate.
  rewrite (mu_Permutation X X' Hperm), (Permutation_length Hperm).
  apply map_ext. intros j. apply map_ext. intros k.
  by rewrite (sum_map_Permutation _ X X').
Qed.

(** C7: in exact arithmetic, the distance is invariant under independent
    permutations of the rows of the real and of the fake feature matrix: it
    depends on each matrix only through the per-column mean and the
    covariance, which do not depend on the order of the rows. *)
Theorem distance_row_permutation_invariant (A B A' B' : matrix) :
  Permutation A A' -> Permutation B B' ->
  mu d A' = mu d A /\ sigma d A' = sigma d A
  /\ mu d B' = mu d B /\ sigma d B' = sigma d B
  /\ distance d sqrtm A' B' = distance d sqrtm A B.
Proof.
  intros HA HB. unfold distance.
  rewrite (mu_Permutation A A' HA), (sigma_Permutation A A' HA).
  by rewrite (mu_Permutation B B' HB), (sigma_Permutation B B' HB).
Qed.

End FrechetProps.

Lemma distance_row_permutation_invariant_witness :
  Frechet.distance 2 (fun M => M) [[3; 4]; [1; 2]; [5; 7]]%R [[1; 1]; [0; 2]]%R
  = Frechet.distance 2 (fun M => M) [[1; 2]; [3; 4]; [5; 7]]%R [[0; 2]; [1; 1]]%R.
Proof.
  apply (distance_row_permutation_invariant 2 (fun M => M)).
  - apply perm_swap.
  - apply perm_swap.
Defined.

(** The mean of the two rows [1; 2] and [3; 4] is [2; 3]. *)
Example mu_example : Frechet.mu 2 [[1; 2]; [3; 4]]%R = [2; 3]%R.
Proof. unfold Frechet.mu, Frechet.column, Tensor.sum. simpl. f_equal; [|f_equal]; lra. Qed.

(** ** The Feature Collection Loader *)

Section LoaderProps.
Context {embedding Age Sex : Type}.
Implicit Types (cache_dir : gmap nat (npz embedding Age Sex)).

Lemma mapM_raise {A B : Type} (f : A -> result B) (e : exn) (l : list A) :
  (forall x, In x l -> returns (f x) \/ f x = Raise e) ->
  (exists x, In x l /\ f x = Raise e) ->
  mapM f l = Raise e.
Proof.
  induction l as [|y l IH]; intros Hall (x & Hin & Hx); [done|].
  simpl. destruct (Hall y) as [[b Hy]|Hy]; [by left| |by rewrite Hy].
  rewrite Hy. simpl. rewrite IH; [done| |].
  - intros z Hz. apply Hall. by right.
  - destruct Hin as [->|Hin]; [congruence|]. by exists x.
Qed.

(** What a successful read of the indices [js] returns: one row per index,
    the embedding of the record at that index, in the order of [js]. *)
Lemma read_records_ok cache_dir (js : list nat) (M : list embedding) :
  mapM (fun i => match cache_dir !! i with
                 | Some record => Ok (npz_feat record)
                 | None => Raise CacheIntegrityError
                 end) js = Ok M ->
  length M = length js
  /\ forall k j, js !! k = Some j ->
                 exists record, cache_dir !! j = Some record
                                /\ M !! k = Some (npz_feat record).
Proof.
  revert M. induction js as [|j js IH]; intros M Hm.
  - simpl in Hm. injection Hm as <-. split; [done|]. by intros k j Hk.
  - simpl in Hm. destruct (cache_dir !! j) as [record|] eqn:Hrec; [|done].
    simpl in Hm.
    destruct (mapM _ js) as [M'|e] eqn:Hrest; [|done].
    simpl in Hm. injection Hm as <-.
    destruct (IH M' eq_refl) as [Hlen Hrows].
    split; [simpl; by rewrite Hlen|].
    intros [|k] j' Hk; simpl in Hk.
    + injection Hk as <-. by exists record.
    + by apply Hrows.
Qed.

(** C9: loading a cache directory of [count] expected records (the number of
    samples the originating loader produced) fails with the MissingRecord
    error, a [CacheIntegrityError], as soon as an index of the contiguous
    range [0, count) has no record, be it a gap or a truncated tail; and a
    matrix that loading returns is never shorter than expected: it has
    [count] rows, the row of index [i] being the embedding of the record at
    index [i]. *)
Theorem load_missing_record (count : nat) cache_dir (i : nat) :
  i < count -> cache_dir !! i = None ->
  raises (load count cache_dir) CacheIntegrityError
  /\ ~ returns (load count cache_dir)
  /\ forall count' M,
       load count' cache_dir = Ok M ->
       count' <= i
       /\ length M = count'
       /\ forall j, j < count' ->
                    exists record, cache_dir !! j = Some record
                                   /\ M !! j = Some (npz_feat record).
Proof.
  intros Hi Hnone.
  assert (Hraise : load count cache_dir = Raise CacheIntegrityError).
  { unfold load. apply mapM_raise.
    - intros j _. destruct (cache_dir !! j); [left; by eexists|by right].
    - exists i. split; [apply in_seq; lia|by rewrite Hnone]. }
  unfold raises, returns. rewrite Hraise.
  split; [done|]. split; [by intros [M ?]|].
  intros count' M Hload. unfold load in Hload.
  apply read_records_ok in Hload as [Hlen Hrows].
  rewrite length_seq in Hlen.
  assert (Hall : forall j, j < count' ->
            exists record, cache_dir !! j = Some record
                           /\ M !! j = Some (npz_feat record)).
  { intros j Hj. apply (Hrows j j). by apply lookup_seq. }
  split; [|by split].
  destruct (le_lt_dec count' i) as [Hle|Hlt]; [done|].
  destruct (Hall i Hlt) as (record & Hrec & _). congruence.
Qed.

(** Without a missing index, loading returns one row per expected record,
    in index order. *)
Lemma load_complete (count : nat) cache_dir :
  (forall i, i < count -> is_Some (cache_dir !! i)) ->
  exists M, load count cache_dir = Ok M /\ length M = count
            /\ forall i record, cache_dir !! i = Some record -> i < count ->
                                M !! i = Some (npz_feat record).
Proof.
  intros Hall.
  assert (Hload : forall js, (forall j, In j js -> is_Some (cache_dir !! j)) ->
            exists M,
              mapM (fun i => match cache_dir !! i with
                             | Some record => Ok (npz_feat record)
                             | None => Raise CacheIntegrityError
                             end) js = Ok M).
  { induction js as [|j js IH]; intros Hjs.
    - by exists [].
    - destruct (IH (fun j' Hj' => Hjs j' (or_intror Hj'))) as (M & Hm).
      destruct (Hjs j (or_introl eq_refl)) as [record Hrec].
      exists (npz_feat record :: M).
      simpl. rewrite Hrec. simpl. by rewrite Hm. }
  destruct (Hload (seq 0 count)) as (M & Hm).
  { intros j Hj. apply Hall. apply in_seq in Hj. lia. }
  exists M. split; [exact Hm|].
  apply read_records_ok in Hm as [Hlen Hrows]. rewrite length_seq in Hlen.
  split; [done|].
  intros i record Hrec Hi.
  destruct (Hrows i i) as (record' & Hrec' & Hrow); [by apply lookup_seq|].
  congruence.
Qed.

End LoaderProps.

(** The loader produced three samples and the extraction stopped after two:
    the record of index 2 is missing at the tail, and loading fails; what
    can be loaded is the two records that are there, as two rows. *)
Lemma load_missing_record_witness :
  raises (load 3 example_truncated) CacheIntegrityError
  /\ ~ returns (load 3 example_truncated)
  /\ load 2 example_truncated = Ok [7; 8].
Proof.
  destruct (load_missing_record 3 example_truncated 2) as (Hraise & Hnot & _).
  - lia.
  - reflexivity.
  - split; [exact Hraise|]. split; [exact Hnot|reflexivity].
Defined.

(** A gap in the middle is detected as well. *)
Example load_gap : load 3 example_gap = Raise CacheIntegrityError.
Proof. reflexivity. Qed.

(** ** The two entry points *)

Section EvaluateProps.
Context {embedding Age Sex D : Type}.

Variable medicalnet : dense Tensor.fval -> list embedding.
Variable imagenet : tensor4 -> list embedding.
Variable FIDMetric : list embedding -> list embedding -> D.
Variable create_dataloader_from_dir :
  gmap string (npz embedding Age Sex) -> string -> list (list embedding).

Implicit Types (w : world embedding Age Sex).

Lemma collect_feats_from (real fake : list (list embedding)) :
  forall acc : list (list embedding) * list (list embedding),
  fold_left (fun acc rf => (acc.1 ++ [rf.1], acc.2 ++ [rf.2])) (zip real fake) acc
  = (acc.1 ++ firstn (Nat.min (length real) (length fake)) real,
     acc.2 ++ firstn (Nat.min (length real) (length fake)) fake).
Proof.
  revert fake. induction real as [|r real IH]; intros [|f fake] [rs fs]; simpl;
    rewrite ?app_nil_r; try done.
  rewrite IH. simpl. by rewrite <- !app_assoc.
Qed.

(** The [zip] keeps the first [min] items of each loader. *)
Lemma collect_feats_firstn (real fake : list (list embedding)) :
  collect_feats real fake
  = (firstn (Nat.min (length real) (length fake)) real,
     firstn (Nat.min (length real) (length fake)) fake).
Proof. unfold collect_feats. by rewrite collect_feats_from. Qed.

Lemma torch_vstack_nonempty (tensors : list (list embedding)) :
  tensors <> [] -> torch_vstack tensors = Ok (concat tensors).
Proof. by destruct tensors. Qed.

Lemma firstn_nonempty {A : Type} (m : nat) (l : list A) :
  1 <= m -> 1 <= length l -> firstn m l <> [].
Proof. destruct m, l; simpl; (lia || done). Qed.

Lemma fid_from_dirs_truncates w (real_feat_dir fake_feat_dir : string) :
  1 <= paired_count create_dataloader_from_dir w real_feat_dir fake_feat_dir ->
  fid_from_dirs FIDMetric create_dataloader_from_dir w real_feat_dir fake_feat_dir
  = Ok (truncated_fid FIDMetric create_dataloader_from_dir w real_feat_dir fake_feat_dir).
Proof.
  unfold paired_count, fid_from_dirs, truncated_fid, paired_count. intros Hm.
  rewrite collect_feats_firstn.
  rewrite !torch_vstack_nonempty; [done| |]; apply firstn_nonempty; lia.
Qed.

(** When one of the loaders yields nothing, nothing is paired and
    [torch.vstack] refuses the empty list. *)
Lemma fid_from_dirs_empty w (real_feat_dir fake_feat_dir : string) :
  paired_count create_dataloader_from_dir w real_feat_dir fake_feat_dir = 0 ->
  fid_from_dirs FIDMetric create_dataloader_from_dir w real_feat_dir fake_feat_dir
  = Raise RuntimeError.
Proof.
  unfold paired_count, fid_from_dirs. intros Hm.
  by rewrite collect_feats_firstn, Hm.
Qed.

(** C10 (amended): in both entry points the real and the fake feature
    collections are paired with [zip] before stacking.  When the two cache
    directories yield at least one record each, whatever their counts, only
    the first [min(count_real, count_fake)] records of each collection
    enter the distance computation; the excess records of the larger
    collection are ignored and no error is raised. *)
Theorem evaluate_fid_truncates_to_shorter
    (real_img_loader fake_img_loader : list (sample Age Sex))
    (real_feat_dir fake_feat_dir : string) (skip_existing : bool) w w1 w2 :
  1 <= paired_count create_dataloader_from_dir w2 real_feat_dir fake_feat_dir ->
  (_extract_medicalnet_features_to_dir medicalnet real_img_loader real_feat_dir
                                       skip_existing w = Ok w1 ->
   _extract_medicalnet_features_to_dir medicalnet fake_img_loader fake_feat_dir
                                       skip_existing w1 = Ok w2 ->
   evaluate_fid_medicalnet3d medicalnet FIDMetric create_dataloader_from_dir
     real_img_loader fake_img_loader real_feat_dir fake_feat_dir skip_existing w
   = Ok (truncated_fid FIDMetric create_dataloader_from_dir w2
                       real_feat_dir fake_feat_dir, w2))
  /\ (_extract_imagenet_features_to_dir imagenet real_img_loader real_feat_dir
                                        skip_existing w = Ok w1 ->
      _extract_imagenet_features_to_dir imagenet fake_img_loader fake_feat_dir
                                        skip_existing w1 = Ok w2 ->
      evaluate_fid_imagenet2d imagenet FIDMetric create_dataloader_from_dir
        real_img_loader fake_img_loader real_feat_dir fake_feat_dir skip_existing w
      = Ok (truncated_fid FIDMetric create_dataloader_from_dir w2
                          real_feat_dir fake_feat_dir, w2)).
Proof.
  intros Hm. split; intros Hreal Hfake.
  - unfold evaluate_fid_medicalnet3d. rewrite Hreal. simpl. rewrite Hfake. simpl.
    by rewrite fid_from_dirs_truncates.
  - unfold evaluate_fid_imagenet2d. rewrite Hreal. simpl. rewrite Hfake. simpl.
    by rewrite fid_from_dirs_truncates.
Qed.

End EvaluateProps.

(** C10, as stated, fails when one of the two collections is empty: the
    counts differ (0 and 1), nothing is paired, and [torch.vstack] raises on
    the empty list. *)
Lemma evaluate_fid_empty_collection_raises :
  exists w2,
    _extract_imagenet_features_to_dir example_imagenet [] "real" false example_world
    = Ok example_world
    /\ _extract_imagenet_features_to_dir example_imagenet [example_sample] "fake"
                                         false example_world = Ok w2
    /\ length (example_dataloader (fs w2) "real") = 0
    /\ length (example_dataloader (fs w2) "fake") = 1
    /\ evaluate_fid_imagenet2d example_imagenet example_fid example_dataloader
         [] [example_sample] "real" "fake" false example_world
       = Raise RuntimeError.
Proof.
  eexists. split; [reflexivity|]. split; [reflexivity|].
  split; [reflexivity|]. split; reflexivity.
Qed.

Lemma evaluate_fid_truncates_to_shorter_witness :
  exists w2,
    length (example_dataloader (fs w2) "real") = 2
    /\ length (example_dataloader (fs w2) "fake") = 1
    /\ evaluate_fid_imagenet2d example_imagenet example_fid example_dataloader
         [example_sample; example_sample] [example_sample] "real" "fake" false
         example_world
       = Ok (example_fid [7] [7], w2).
Proof.
  eassert (Hreal : _extract_imagenet_features_to_dir example_imagenet
                     [example_sample; example_sample] "real" false example_world
                   = Ok _) by reflexivity.
  match type of Hreal with
  | _ = Ok ?w1 =>
      eassert (Hfake : _extract_imagenet_features_to_dir example_imagenet
                         [example_sample] "fake" false w1 = Ok _) by reflexivity
  end.
  match type of Hfake with
  | _ = Ok ?w2 =>
      exists w2;
      assert (Hm : 1 <= paired_count example_dataloader w2 "real" "fake")
        by (vm_compute; lia)
  end.
  split; [reflexivity|]. split; [reflexivity|].
  refine (proj2 (evaluate_fid_truncates_to_shorter example_medicalnet
                   example_imagenet example_fid example_dataloader
                   [example_sample; example_sample] [example_sample]
                   "real" "fake" false example_world _ _ Hm) Hreal Hfake).
Defined.

(** * Further properties of the extraction loops *)

Section CacheFrame.
Context {embedding Age Sex : Type}.

Local Abbreviation sample := (sample Age Sex).
Local Abbreviation npz := (npz embedding Age Sex).
Local Abbreviation world := (world embedding Age Sex).

Implicit Types (w : world) (data : sample) (dest_dir : string).

(** *** What a caching loop leaves alone *)

Section Frame.

Variable body : string -> bool -> world -> nat * sample -> result world.

Hypothesis body_exists : forall dest_dir skip w i data w',
  body dest_dir skip w (i, data) = Ok w' ->
  is_Some (fs w' !! save_path dest_dir i)
  /\ (forall path, is_Some (fs w !! path) -> is_Some (fs w' !! path)).

Hypothesis body_frame : forall dest_dir skip w i data w',
  body dest_dir skip w (i, data) = Ok w' ->
  forall path, path <> save_path dest_dir i -> fs w' !! path = fs w !! path.

Hypothesis body_keeps : forall dest_dir w i data w',
  body dest_dir true w (i, data) = Ok w' ->
  is_Some (fs w !! save_path dest_dir i) ->
  fs w' !! save_path dest_dir i = fs w !! save_path dest_dir i.

Lemma loop_frame dest_dir skip (loader : list sample) : forall k w w',
  for_each (body dest_dir skip) (enumerate_from k loader) w = Ok w' ->
  forall path,
    (forall j, k <= j < k + length loader -> path <> save_path dest_dir j) ->
    fs w' !! path = fs w !! path.
Proof.
  induction loader as [|data loader IH]; intros k w w' Hrun path Hpath.
  - simpl in Hrun. by injection Hrun as <-.
  - rewrite enumerate_from_cons in Hrun. cbn [for_each] in Hrun.
    destruct (body dest_dir skip w (k, data)) as [w1|e] eqn:Hbody; [|done].
    simpl in Hrun. rewrite (IH _ _ _ Hrun).
    + apply (body_frame _ _ _ _ _ _ Hbody). apply Hpath. simpl. lia.
    + intros j Hj. apply Hpath. simpl. lia.
Qed.

Lemma loop_keeps dest_dir (loader : list sample) : forall k w w',
  for_each (body dest_dir true) (enumerate_from k loader) w = Ok w' ->
  forall path, is_Some (fs w !! path) -> fs w' !! path = fs w !! path.
Proof.
  induction loader as [|data loader IH]; intros k w w' Hrun path Hsome.
  - simpl in Hrun. by injection Hrun as <-.
  - rewrite enumerate_from_cons in Hrun. cbn [for_each] in Hrun.
    destruct (body dest_dir true w (k, data)) as [w1|e] eqn:Hbody; [|done].
    simpl in Hrun.
    assert (Hstep : fs w1 !! path = fs w !! path).
    { destruct (decide (path = save_path dest_dir k)) as [->|Hne].
      - by apply (body_keeps _ _ _ _ _ Hbody).
      - by apply (body_frame _ _ _ _ _ _ Hbody). }
    rewrite (IH _ _ _ Hrun); [done|]. by rewrite Hstep.
Qed.

Lemma loop_exists dest_dir skip (loader : list sample) : forall k w w',
  for_each (body dest_dir skip) (enumerate_from k loader) w = Ok w' ->
  (forall path, is_Some (fs w !! path) -> is_Some (fs w' !! path))
  /\ (forall j, k <= j < k + length loader ->
                is_Some (fs w' !! save_path dest_dir j)).
Proof.
  induction loader as [|data loader IH]; intros k w w' Hrun.
  - simpl in Hrun. injection Hrun as <-. split; [done|]. simpl. intros j Hj. lia.
  - rewrite enumerate_from_cons in Hrun. cbn [for_each] in Hrun.
    destruct (body dest_dir skip w (k, data)) as [w1|e] eqn:Hbody; [|done].
    simpl in Hrun.
    destruct (body_exists _ _ _ _ _ _ Hbody) as [Hfile Hmono1].
    destruct (IH _ _ _ Hrun) as [Hmono Hrest].
    split; [by auto|].
    intros j Hj. simpl in Hj. destruct (decide (j = k)) as [->|Hne].
    + by apply Hmono.
    + apply Hrest. lia.
Qed.

End Frame.

(** *** The two loop bodies satisfy the frame conditions *)

Lemma medicalnet_body_frame (fe : dense Tensor.fval -> list embedding)
    dest_dir skip w i data w' :
  medicalnet_body fe dest_dir skip w (i, data) = Ok w' ->
  forall path, path <> save_path dest_dir i -> fs w' !! path = fs w !! path.
Proof. intros Hbody path _. by apply medicalnet_body_ok in Hbody as [_ ->]. Qed.

Lemma medicalnet_body_keeps (fe : dense Tensor.fval -> list embedding)
    dest_dir w i data w' :
  medicalnet_body fe dest_dir true w (i, data) = Ok w' ->
  is_Some (fs w !! save_path dest_dir i) ->
  fs w' !! save_path dest_dir i = fs w !! save_path dest_dir i.
Proof. intros Hbody _. by apply medicalnet_body_ok in Hbody as [_ ->]. Qed.

Lemma imagenet_body_frame (fe : tensor4 -> list embedding)
    dest_dir skip w i data w' :
  imagenet_body fe dest_dir skip w (i, data) = Ok w' ->
  forall path, path <> save_path dest_dir i -> fs w' !! path = fs w !! path.
Proof.
  unfold imagenet_body.
  destruct (central_slice (image data)) as [slice|e]; simpl; [|done].
  destruct (skip && os_path_exists w (save_path dest_dir i)); [by intros [= <-]|].
  destruct (_get_imagenet_features fe slice) as [feat|e]; simpl; [|done].
  destruct (getitem0 feat) as [feat0|e]; simpl; [|done].
  intros [= <-] path Hne. simpl. by rewrite lookup_insert_ne.
Qed.

Lemma imagenet_body_keeps (fe : tensor4 -> list embedding)
    dest_dir w i data w' :
  imagenet_body fe dest_dir true w (i, data) = Ok w' ->
  is_Some (fs w !! save_path dest_dir i) ->
  fs w' !! save_path dest_dir i = fs w !! save_path dest_dir i.
Proof.
  unfold imagenet_body. intros Hbody Hsome.
  destruct (central_slice (image data)) as [slice|e]; simpl in Hbody; [|done].
  apply os_path_exists_true in Hsome. rewrite Hsome in Hbody. simpl in Hbody.
  by injection Hbody as <-.
Qed.

(** X1: a completed extraction run over a loader of [n] samples changes no
    file other than [feat_0.npz] ... [feat_<n-1>.npz] of the destination
    directory: every other path has the content, or the absence, it had
    before.  This holds for the volumetric and for the 2D extraction. *)
Theorem extraction_touches_only_record_files
    (medicalnet : dense Tensor.fval -> list embedding)
    (imagenet : tensor4 -> list embedding)
    (loader : list sample) dest_dir (skip_existing : bool) w w' (path : string) :
  (forall j, j < length loader -> path <> save_path dest_dir j) ->
  (_extract_medicalnet_features_to_dir medicalnet loader dest_dir skip_existing w
   = Ok w' -> fs w' !! path = fs w !! path)
  /\ (_extract_imagenet_features_to_dir imagenet loader dest_dir skip_existing w
      = Ok w' -> fs w' !! path = fs w !! path).
Proof.
  intros Hpath. split; intros Hrun.
  - eapply (loop_frame (medicalnet_body medicalnet)); [|exact Hrun|].
    + apply medicalnet_body_frame.
    + intros j Hj. apply Hpath. lia.
  - eapply (loop_frame (imagenet_body imagenet)); [|exact Hrun|].
    + apply imagenet_body_frame.
    + intros j Hj. apply Hpath. lia.
Qed.

(** X2: a completed extraction run with [skip_existing] set never overwrites:
    every file that existed before the run, a record file of the destination
    directory included, has the same content after it. *)
Theorem skip_existing_never_overwrites
    (medicalnet : dense Tensor.fval -> list embedding)
    (imagenet : tensor4 -> list embedding)
    (loader : list sample) dest_dir w w' (path : string) :
  is_Some (fs w !! path) ->
  (_extract_medicalnet_features_to_dir medicalnet loader dest_dir true w = Ok w' ->
   fs w' !! path = fs w !! path)
  /\ (_extract_imagenet_features_to_dir imagenet loader dest_dir true w = Ok w' ->
      fs w' !! path = fs w !! path).
Proof.
  intros Hsome. split; intros Hrun.
  - eapply (loop_keeps (medicalnet_body medicalnet)); [| |exact Hrun|done].
    + apply medicalnet_body_frame.
    + apply medicalnet_body_keeps.
  - eapply (loop_keeps (imagenet_body imagenet)); [| |exact Hrun|done].
    + apply imagenet_body_frame.
    + apply imagenet_body_keeps.
Qed.

(** *** How a volumetric run completes *)

Lemma medicalnet_run_skips_from (fe : dense Tensor.fval -> list embedding)
    dest_dir skip (loader : list sample) : forall k w,
  (forall j, k <= j < k + length loader -> skipped skip w dest_dir j = true) ->
  for_each (medicalnet_body fe dest_dir skip) (enumerate_from k loader) w = Ok w.
Proof.
  induction loader as [|data loader IH]; intros k w Hall; [done|].
  rewrite enumerate_from_cons. cbn [for_each].
  rewrite medicalnet_body_skipped by (apply Hall; simpl; lia).
  simpl. apply IH. intros j Hj. apply Hall. simpl. lia.
Qed.

(** X3: a volumetric extraction run completes only by skipping.  It returns
    exactly when every sample of the loader is skipped, that is when
    [skip_existing] is set and [feat_<i>.npz] exists for every position [i]
    of the loader (or the loader is empty), and the state it returns is the
    one it started from: the backbone and [np.savez] are not called once. *)
Theorem volumetric_run_completes_only_by_skipping
    (feature_extractor : dense Tensor.fval -> list embedding)
    (loader : list sample) dest_dir (skip_existing : bool) w w' :
  _extract_medicalnet_features_to_dir feature_extractor loader dest_dir
                                      skip_existing w = Ok w'
  <-> w' = w
      /\ forall i, i < length loader ->
                   skip_existing = true
                   /\ is_Some (fs w !! save_path dest_dir i).
Proof.
  unfold _extract_medicalnet_features_to_dir. rewrite enumerate_from_0. split.
  - intros Hrun. apply medicalnet_run_ok_from in Hrun as [-> Hall].
    split; [done|]. intros i Hi.
    specialize (Hall i ltac:(lia)). unfold skipped in Hall.
    apply andb_true_iff in Hall as [Hskip Hex].
    split; [done|]. by apply os_path_exists_true.
  - intros [-> Hall]. apply medicalnet_run_skips_from. intros j Hj.
    destruct (Hall j ltac:(lia)) as [-> Hsome]. unfold skipped. simpl.
    by apply os_path_exists_true.
Qed.

(** *** Skipping looks at the position only *)

Lemma medicalnet_all_skipped (fe : dense Tensor.fval -> list embedding)
    dest_dir (loader : list sample) : forall k w,
  (forall j, k <= j < k + length loader -> is_Some (fs w !! save_path dest_dir j)) ->
  for_each (medicalnet_body fe dest_dir true) (enumerate_from k loader) w = Ok w.
Proof.
  intros k w Hall. apply medicalnet_run_skips_from. intros j Hj.
  unfold skipped. simpl. by apply os_path_exists_true, Hall.
Qed.

Lemma medicalnet_run_exists (fe : dense Tensor.fval -> list embedding)
    dest_dir skip (loader : list sample) w w' :
  _extract_medicalnet_features_to_dir fe loader dest_dir skip w = Ok w' ->
  forall j, j < length loader -> is_Some (fs w' !! save_path dest_dir j).
Proof.
  intros Hrun j Hj.
  eapply (loop_exists (medicalnet_body fe)); [|exact Hrun|lia].
  apply medicalnet_body_fs.
Qed.

(** The 2D loop slices the image before it tests for the record: it skips a
    sample only if the slice can be taken. *)
Lemma imagenet_all_skipped (fe : tensor4 -> list embedding)
    dest_dir (loader : list sample) : forall k w,
  Forall (fun data => returns (central_slice (image data))) loader ->
  (forall j, k <= j < k + length loader -> is_Some (fs w !! save_path dest_dir j)) ->
  for_each (imagenet_body fe dest_dir true) (enumerate_from k loader) w = Ok w.
Proof.
  induction loader as [|data loader IH]; intros k w Hsl Hall; [done|].
  inversion Hsl as [|? ? [slice Hslice] Hrest]; subst.
  rewrite enumerate_from_cons. cbn [for_each].
  assert (Hbody : imagenet_body fe dest_dir true w (k, data) = Ok w).
  { unfold imagenet_body. rewrite Hslice. simpl.
    assert (Hex : os_path_exists w (save_path dest_dir k) = true).
    { apply os_path_exists_true, Hall. simpl. lia. }
    by rewrite Hex. }
  rewrite Hbody. simpl. apply IH; [done|]. intros j Hj. apply Hall. simpl. lia.
Qed.

Lemma imagenet_run_exists (fe : tensor4 -> list embedding)
    dest_dir skip (loader : list sample) w w' :
  _extract_imagenet_features_to_dir fe loader dest_dir skip w = Ok w' ->
  forall j, j < length loader -> is_Some (fs w' !! save_path dest_dir j).
Proof.
  intros Hrun j Hj.
  eapply (loop_exists (imagenet_body fe)); [|exact Hrun|lia].
  apply imagenet_body_fs.
Qed.

(** X4: the skip test looks at the position of a sample, not at the sample,
    and not at the kind of features a record holds.  After a completed run,
    volumetric or 2D, over one loader, a run with [skip_existing] over any
    other loader that is not longer, into the same directory, computes
    nothing and returns the state as it is, records of the first loader
    included: the volumetric run always, the 2D run when the central slice
    of each of its samples can be taken (it is taken before the test). *)
Theorem skip_existing_ignores_the_samples
    (medicalnet : dense Tensor.fval -> list embedding)
    (imagenet : tensor4 -> list embedding)
    (first_loader other_loader : list sample) dest_dir (skip_existing : bool) w w1 :
  _extract_medicalnet_features_to_dir medicalnet first_loader dest_dir
                                      skip_existing w = Ok w1
  \/ _extract_imagenet_features_to_dir imagenet first_loader dest_dir
                                       skip_existing w = Ok w1 ->
  length other_loader <= length first_loader ->
  _extract_medicalnet_features_to_dir medicalnet other_loader dest_dir true w1
  = Ok w1
  /\ (Forall (fun data => returns (central_slice (image data))) other_loader ->
      _extract_imagenet_features_to_dir imagenet other_loader dest_dir true w1
      = Ok w1).
Proof.
  intros Hrun Hlen.
  assert (Hex : forall j, j < length first_loader ->
                          is_Some (fs w1 !! save_path dest_dir j)).
  { destruct Hrun as [Hrun|Hrun].
    - by apply (medicalnet_run_exists _ _ _ _ _ _ Hrun).
    - by apply (imagenet_run_exists _ _ _ _ _ _ Hrun). }
  split.
  - unfold _extract_medicalnet_features_to_dir. rewrite enumerate_from_0.
    apply medicalnet_all_skipped. intros j Hj. apply Hex. lia.
  - intros Hsl. unfold _extract_imagenet_features_to_dir.
    rewrite enumerate_from_0.
    apply imagenet_all_skipped; [done|]. intros j Hj. apply Hex. lia.
Qed.

End CacheFrame.

(** *** The further properties on the example data *)

Lemma extraction_touches_only_record_files_witness :
  exists w',
    _extract_imagenet_features_to_dir example_imagenet [example_sample] "cache"
                                      false example_world = Ok w'
    /\ fs w' !! "cache/notes.txt" = fs example_world !! "cache/notes.txt".
Proof.
  pose proof example_imagenet_run as Hrun.
  match type of Hrun with _ = Ok ?w => exists w end.
  split; [exact Hrun|].
  refine (proj2 (extraction_touches_only_record_files example_medicalnet
                   example_imagenet [example_sample] "cache" false example_world
                   _ "cache/notes.txt" _) Hrun).
  intros j Hj. assert (j = 0) as -> by (simpl in Hj; lia).
  intros Heq. vm_compute in Heq. discriminate Heq.
Defined.

Lemma skip_existing_never_overwrites_witness :
  exists w',
    _extract_imagenet_features_to_dir example_imagenet
      [example_sample; example_other_sample] "cache" true example_cached_world
    = Ok w'
    /\ fs w' !! "cache/feat_0.npz" = Some (Npz 1%nat 2%nat false)
    /\ fs w' !! "cache/feat_1.npz" = Some (Npz 7%nat 20%nat false).
Proof.
  eassert (Hrun : _extract_imagenet_features_to_dir example_imagenet
                    [example_sample; example_other_sample] "cache" true
                    example_cached_world = Ok _) by reflexivity.
  match type of Hrun with _ = Ok ?w => exists w end.
  split; [exact Hrun|]. split; [|reflexivity].
  assert (Hsome : is_Some (fs example_cached_world !! "cache/feat_0.npz"))
    by (by eexists).
  etransitivity.
  - exact (proj2 (skip_existing_never_overwrites example_medicalnet
                    example_imagenet [example_sample; example_other_sample]
                    "cache" example_cached_world _ "cache/feat_0.npz" Hsome) Hrun).
  - reflexivity.
Defined.

(** The records that the 2D extraction wrote make the volumetric extraction
    skip, and the 2D extraction too, whatever the samples are. *)
Lemma skip_existing_ignores_the_samples_witness :
  exists w1,
    _extract_imagenet_features_to_dir example_imagenet [example_sample]
                                      "cache" false example_world = Ok w1
    /\ _extract_medicalnet_features_to_dir example_medicalnet
         [example_other_sample] "cache" true w1 = Ok w1
    /\ _extract_imagenet_features_to_dir example_imagenet
         [example_other_sample] "cache" true w1 = Ok w1.
Proof.
  pose proof example_imagenet_run as Hrun.
  match type of Hrun with _ = Ok ?w => exists w end.
  split; [exact Hrun|].
  destruct (skip_existing_ignores_the_samples example_medicalnet example_imagenet
              [example_sample] [example_other_sample] "cache" false
              example_world _ (or_intror Hrun)) as [Hmed Himg].
  - simpl. lia.
  - split; [exact Hmed|]. apply Himg.
    constructor; [|constructor]. by eexists.
Defined.

(** * Further properties of the 2D preprocessing *)

Section ImagenetMore.
Context {embedding : Type}.
Local Open Scope R_scope.

Variable feature_extractor : tensor4 -> list embedding.

Lemma mapM_ok {A B : Type} (f : A -> result B) (h : A -> B) (l : list A) :
  (forall x, In x l -> f x = Ok (h x)) -> mapM f l = Ok (map h l).
Proof.
  induction l as [|y l IH]; intros Hall; [done|].
  simpl. rewrite Hall by (by left). simpl. rewrite IH; [done|].
  intros z Hz. apply Hall. by right.
Qed.

Lemma replicate_channels_uniform (k : nat) (image : tensor4) :
  (1 <= k)%nat -> Forall (fun channels => length channels = k) image ->
  replicate_channels image
  = map (fun channels => channels ++ channels ++ channels) image.
Proof.
  intros Hk Hall. unfold replicate_channels, shape1.
  destruct image as [|channels image]; [done|].
  apply Forall_cons in Hall as [Hlen _]. simpl hd. rewrite Hlen.
  by destruct k; [lia|].
Qed.

Lemma bgr_of_tiled (channels : list plane) :
  (1 <= length channels)%nat ->
  mapM (fun k => getitem k (channels ++ channels ++ channels)) [2; 1; 0]%nat
  = Ok [nth (2 mod length channels) channels [];
        nth (1 mod length channels) channels [];
        nth 0 channels []].
Proof.
  destruct channels as [|a [|b [|c rest]]]; intros Hlen.
  - simpl in Hlen. lia.
  - reflexivity.
  - reflexivity.
  - rewrite !Nat.mod_small by (simpl; lia). reflexivity.
Qed.

Lemma subtract_mean_three (image : tensor4) (c0 c1 c2 : list plane -> plane) :
  subtract_mean (map (fun channels => [c0 channels; c1 channels; c2 channels]) image)
  = Ok (map (fun channels => [plane_sub 0.406 (c0 channels);
                              plane_sub 0.456 (c1 channels);
                              plane_sub 0.485 (c2 channels)]) image).
Proof.
  unfold subtract_mean, sub_channel. cbn [fst snd].
  rewrite (mapM_ok _ (fun channels => alter (plane_sub 0.406) 0%nat channels)).
  2:{ intros cs Hin. apply in_map_iff in Hin as (x & <- & _). done. }
  simpl.
  rewrite (mapM_ok _ (fun channels => alter (plane_sub 0.456) 1%nat channels)).
  2:{ intros cs Hin. apply in_map_iff in Hin as (y & <- & Hin).
      apply in_map_iff in Hin as (x & <- & _). done. }
  simpl.
  rewrite (mapM_ok _ (fun channels => alter (plane_sub 0.485) 2%nat channels)).
  2:{ intros cs Hin. apply in_map_iff in Hin as (z & <- & Hin).
      apply in_map_iff in Hin as (y & <- & Hin).
      apply in_map_iff in Hin as (x & <- & _). done. }
  simpl. by rewrite !map_map.
Qed.

Lemma mapM_ok_map {A B C : Type} (t : A -> B) (f : B -> result C) (h : A -> C)
    (l : list A) :
  (forall x, In x l -> f (t x) = Ok (h x)) -> mapM f (map t l) = Ok (map h l).
Proof.
  intros Hall. induction l as [|y l IH]; [done|].
  simpl. rewrite Hall by (by left). simpl. rewrite IH; [done|].
  intros z Hz. apply Hall. by right.
Qed.

Lemma getitem_nth {A : Type} (k : nat) (l : list A) (d : A) :
  (k < length l)%nat -> getitem k l = Ok (nth k l d).
Proof.
  intros Hk. unfold getitem. rewrite (nth_lookup l k d).
  destruct (lookup_lt_is_Some_2 l k Hk) as [x ->]. done.
Qed.

Lemma get_imagenet_features_uniform (k : nat) (image : tensor4) :
  (1 <= k)%nat -> Forall (fun channels => length channels = k) image ->
  _get_imagenet_features feature_extractor image
  = Ok (feature_extractor (map model_channels image)).
Proof.
  intros Hk Hall. unfold _get_imagenet_features.
  rewrite (replicate_channels_uniform k image Hk Hall). unfold rgb_to_bgr.
  rewrite (mapM_ok_map (A:=list plane) (B:=list plane) (C:=list plane) _ _
             (fun channels => [nth (2 mod length channels) channels [];
                               nth (1 mod length channels) channels [];
                               nth 0 channels []])).
  2:{ intros cs Hin. apply bgr_of_tiled.
      rewrite Forall_forall in Hall. rewrite (Hall cs); [done|].
      by apply list_elem_of_In. }
  simpl.
  by rewrite (subtract_mean_three image
                (fun channels => nth (2 mod length channels) channels [])
                (fun channels => nth (1 mod length channels) channels [])
                (fun channels => nth 0 channels [])).
Qed.

Lemma central_slice_rectangular (k : nat) (image : tensor5) :
  rectangular k image -> central_slice image = Ok (central_slices image).
Proof.
  intros (Hk & Hd & Hch & Hdepth).
  unfold central_slice, central_slices. fold (depth_of image).
  apply mapM_ok. intros channels Hin.
  apply mapM_ok. intros channel Hin'.
  apply getitem_nth.
  rewrite Forall_forall in Hdepth.
  pose proof (Hdepth channels (proj2 (list_elem_of_In _ _) Hin)) as Hc.
  rewrite Forall_forall in Hc.
  rewrite (Hc channel (proj2 (list_elem_of_In _ _) Hin')).
  apply Nat.div_lt; lia.
Qed.

Lemma central_slices_channels (k : nat) (image : tensor5) :
  rectangular k image ->
  Forall (fun channels => length channels = k) (central_slices image).
Proof.
  intros (Hk & Hd & Hch & Hdepth).
  unfold central_slices. apply Forall_forall. intros cs Hin.
  apply list_elem_of_In in Hin. apply in_map_iff in Hin as (x & <- & Hin).
  rewrite length_map. rewrite Forall_forall in Hch. apply Hch.
  by apply list_elem_of_In.
Qed.

Lemma no_channel_raises_IndexError (image : tensor4) :
  shape1 image = 0%nat -> image <> [] ->
  _get_imagenet_features feature_extractor image = Raise IndexError.
Proof.
  intros Hshape Hne. unfold _get_imagenet_features, replicate_channels.
  rewrite Hshape. simpl.
  destruct image as [|[|c cs] image]; [done|reflexivity|done].
Qed.

(** X5: for a batch whose elements all have the same number [k] of channels:
    if [k >= 1], [_get_imagenet_features] raises nothing and gives the
    model, for every batch element, exactly three planes: the channels 2, 1
    and 0 of the element counted modulo [k], minus 0.406, 0.456 and 0.485.
    A single channel is thus given three times, three channels are given in
    reverse order (the replication to nine channels has no effect on what
    the model sees), and two channels [a; b] are accepted and given as
    [a; b; a].  If [k = 0] and the batch is not empty, nothing is replicated
    and the channel indexing raises [IndexError]. *)
Theorem model_is_given_three_channels (k : nat) (image : tensor4) :
  Forall (fun channels => length channels = k) image ->
  ((1 <= k)%nat ->
   _get_imagenet_features feature_extractor image
   = Ok (feature_extractor (map model_channels image))
   /\ Forall (fun channels => length channels = 3%nat) (map model_channels image))
  /\ (k = 0%nat -> image <> [] ->
      _get_imagenet_features feature_extractor image = Raise IndexError).
Proof.
  intros Hall. split.
  - intros Hk. split; [by apply (get_imagenet_features_uniform k)|].
    apply Forall_forall. intros cs Hin. apply list_elem_of_In in Hin.
    apply in_map_iff in Hin as (x & <- & _). done.
  - intros -> Hne. apply no_channel_raises_IndexError; [|done].
    destruct image as [|cs image]; [done|].
    apply Forall_cons in Hall as [Hcs _]. exact Hcs.
Qed.

Lemma central_slice_of_depth_zero (channels : list (list plane))
    (image : tensor5) :
  central_slice (([] :: channels) :: image) = Raise IndexError.
Proof. reflexivity. Qed.

(** X6: on a rectangular batch of volumes of depth [D >= 1], the 2D path
    takes from every channel of every batch element the slice at index
    [D // 2], and batch size and channel count are kept; a batch whose first
    volume has depth zero has no central slice, and the indexing raises
    [IndexError]. *)
Theorem central_slice_of_rectangular (k : nat) (image : tensor5) :
  (rectangular k image ->
   central_slice image = Ok (central_slices image)
   /\ length (central_slices image) = length image
   /\ Forall (fun channels => length channels = k) (central_slices image))
  /\ (depth_of image = 0%nat -> hd [] image <> [] ->
      central_slice image = Raise IndexError).
Proof.
  split.
  - intros Hrect. split; [by apply (central_slice_rectangular k)|]. split.
    + unfold central_slices. by rewrite length_map.
    + by apply central_slices_channels.
  - unfold depth_of. intros Hdepth Hne.
    destruct image as [|[|[|slice channel] channels] image]; try done.
Qed.

End ImagenetMore.

(** * The 2D extraction loop *)

Section ImagenetRun.
Context {embedding Age Sex : Type}.

Local Abbreviation sample := (sample Age Sex).
Local Abbreviation npz := (npz embedding Age Sex).
Local Abbreviation world := (world embedding Age Sex).

Implicit Types (w : world) (data : sample) (dest_dir : string).

Variable feature_extractor : tensor4 -> list embedding.

Lemma imagenet_body_skipped dest_dir skip w i data (k : nat) :
  rectangular k (image data) ->
  skipped skip w dest_dir i = true ->
  imagenet_body feature_extractor dest_dir skip w (i, data) = Ok w.
Proof.
  intros Hrect Hskip. unfold imagenet_body.
  rewrite (central_slice_rectangular k _ Hrect). simpl.
  unfold skipped in Hskip. by rewrite Hskip.
Qed.

Lemma imagenet_body_computed dest_dir skip w i data (k : nat) :
  rectangular k (image data) ->
  skipped skip w dest_dir i = false ->
  imagenet_body feature_extractor dest_dir skip w (i, data)
  = feat0 ← getitem0 (feature_extractor (model_input (image data)));
    Ok (World (<[save_path dest_dir i := Npz feat0 (age data) (sex data)]> (fs w))
              (gen w)
              (trace w ++ [Inference;
                           Savez (save_path dest_dir i)
                                 (Npz feat0 (age data) (sex data))])).
Proof.
  intros Hrect Hskip. unfold imagenet_body.
  rewrite (central_slice_rectangular k _ Hrect). simpl.
  unfold skipped in Hskip. rewrite Hskip.
  rewrite (get_imagenet_features_uniform feature_extractor k).
  - done.
  - by destruct Hrect.
  - by apply central_slices_channels.
Qed.

Lemma imagenet_run_from dest_dir skip (loader : list sample) :
  (forall x, feature_extractor x <> []) ->
  Forall (fun data => exists k, rectangular k (image data)) loader ->
  forall k w, exists w' written,
    for_each (imagenet_body feature_extractor dest_dir skip)
             (enumerate_from k loader) w = Ok w'
    /\ (forall path, (forall j, k <= j -> path <> save_path dest_dir j) ->
                     fs w' !! path = fs w !! path)
    /\ gen w' = gen w
    /\ savez_calls w' = savez_calls w ++ written
    /\ inference_calls w' = inference_calls w + length written
    /\ Forall2 (is_slice_record_of feature_extractor dest_dir w')
               (List.filter (fun x => negb (skipped skip w dest_dir x.1))
                            (enumerate_from k loader))
               written.
Proof.
  intros Hfe Hrect. induction Hrect as [|data loader [c Hdata] _ IH]; intros k w.
  - exists w, []. simpl. rewrite app_nil_r.
    split; [done|]. split; [done|]. split; [done|]. split; [done|].
    split; [lia|constructor].
  - rewrite enumerate_from_cons. cbn [for_each List.filter fst].
    destruct (skipped skip w dest_dir k) eqn:Hskip.
    + rewrite (imagenet_body_skipped _ _ _ _ _ c) by done. simpl.
      destruct (IH (S k) w)
        as (w' & written & Hrun & Hpres & Hgen & Hcalls & Hinf & Hrec).
      exists w', written. split; [done|]. split; [|done].
      intros path Hpath. apply Hpres. intros j Hj. apply Hpath. lia.
    + rewrite (imagenet_body_computed _ _ _ _ _ c) by done.
      destruct (getitem0_nonempty _ (Hfe (model_input (image data))))
        as [feat0 Hfeat0].
      rewrite Hfeat0. simpl.
      set (content := Npz feat0 (age data) (sex data)).
      set (w1 := World (<[save_path dest_dir k := content]> (fs w)) (gen w)
                       (trace w ++ [Inference; Savez (save_path dest_dir k) content])).
      destruct (IH (S k) w1)
        as (w' & written & Hrun & Hpres & Hgen & Hcalls & Hinf & Hrec).
      assert (Hk : fs w' !! save_path dest_dir k = Some content).
      { rewrite Hpres.
        - unfold w1. simpl. by rewrite lookup_insert_eq.
        - intros j Hj Heq. apply save_path_inj in Heq. lia. }
      exists w', ((save_path dest_dir k, content) :: written).
      split; [done|]. split; [|split; [|split; [|split]]].
      * intros path Hpath. rewrite Hpres.
        -- unfold w1. simpl. rewrite lookup_insert_ne; [done|].
           intros Heq. by apply (Hpath k).
        -- intros j Hj. apply Hpath. lia.
      * by rewrite Hgen.
      * rewrite Hcalls. unfold w1. rewrite savez_calls_snoc.
        by rewrite <- app_assoc.
      * rewrite Hinf. unfold w1. rewrite inference_calls_snoc. simpl. lia.
      * constructor.
        -- repeat split; simpl; done.
        -- erewrite filter_ext_in; [exact Hrec|].
           intros [j d] Hin. apply enumerate_from_In in Hin. simpl.
           unfold w1. rewrite skipped_insert_ne; [done|lia].
Qed.

(** X7: a 2D extraction run over rectangular volumes, with a backbone that
    returns at least one embedding per call, completes; it calls [np.savez]
    exactly once per sample that is not skipped, in loader order, writing for
    the sample at position [i] the file [feat_<i>.npz] with the first
    embedding returned for the model input of its central slice and with its
    age and sex; it calls the backbone as many times; and it draws nothing
    from the random generator. *)
Theorem slice_extraction_writes_one_record_per_sample
    (loader : list sample) dest_dir (skip_existing : bool) w :
  (forall x, feature_extractor x <> []) ->
  Forall (fun data => exists k, rectangular k (image data)) loader ->
  exists w' written,
    _extract_imagenet_features_to_dir feature_extractor loader dest_dir
                                      skip_existing w = Ok w'
    /\ savez_calls w' = savez_calls w ++ written
    /\ inference_calls w' = inference_calls w + length written
    /\ gen w' = gen w
    /\ Forall2 (is_slice_record_of feature_extractor dest_dir w')
               (List.filter (fun x => negb (skipped skip_existing w dest_dir x.1))
                            (enumerate loader))
               written.
Proof.
  intros Hfe Hrect. unfold _extract_imagenet_features_to_dir.
  rewrite enumerate_from_0.
  destruct (imagenet_run_from dest_dir skip_existing loader Hfe Hrect 0 w)
    as (w' & written & Hrun & _ & Hgen & Hcalls & Hinf & Hrec).
  by exists w', written.
Qed.

End ImagenetRun.

(** *** The 2D properties on the example data *)

Lemma example_samples_rectangular :
  Forall (fun data : sample nat bool => exists k, rectangular k (image data))
         [example_sample; example_other_sample].
Proof.
  repeat constructor; exists 1; repeat split; simpl; repeat constructor.
Qed.

Lemma model_is_given_three_channels_witness :
  _get_imagenet_features example_imagenet [[ [[1]]; [[2]] ]]%R
  = Ok (example_imagenet [model_channels [ [[1]]; [[2]] ]%R]).
Proof.
  destruct (model_is_given_three_channels example_imagenet 2 [[ [[1]]; [[2]] ]]%R)
    as [Hok _].
  - repeat constructor.
  - destruct Hok as [Hfeat _]; [lia|exact Hfeat].
Defined.

Lemma central_slice_of_rectangular_witness :
  central_slice (image example_sample) = Ok [[ [[1; 0]] ]]%R.
Proof.
  destruct (central_slice_of_rectangular 1 (image example_sample)) as [Hok _].
  destruct Hok as [Hslice _]; [|exact Hslice].
  repeat split; simpl; repeat constructor.
Defined.

Lemma slice_extraction_writes_one_record_per_sample_witness :
  exists w' written,
    _extract_imagenet_features_to_dir example_imagenet
      [example_sample; example_other_sample] "cache" true example_cached_world
    = Ok w'
    /\ savez_calls w' = savez_calls example_cached_world ++ written
    /\ length written = 1.
Proof.
  destruct (slice_extraction_writes_one_record_per_sample example_imagenet
              [example_sample; example_other_sample] "cache" true
              example_cached_world) as (w' & written & Hrun & Hcalls & _ & _ & Hrec).
  - by intros x.
  - exact example_samples_rectangular.
  - exists w', written. split; [exact Hrun|]. split; [exact Hcalls|].
    apply Forall2_length in Hrec. rewrite <- Hrec. reflexivity.
Defined.

(** * Further properties of the entry points and of the paths *)

Section EvaluateMore.
Context {embedding Age Sex D : Type}.

Variable medicalnet : dense Tensor.fval -> list embedding.
Variable imagenet : tensor4 -> list embedding.
Variable FIDMetric : list embedding -> list embedding -> D.
Variable create_dataloader_from_dir :
  gmap string (npz embedding Age Sex) -> string -> list (list embedding).

Implicit Types (w : world embedding Age Sex).

Lemma fid_of_shared_directory w1 (feat_dir : string) :
  create_dataloader_from_dir (fs w1) feat_dir <> [] ->
  fid_from_dirs FIDMetric create_dataloader_from_dir w1 feat_dir feat_dir
  = Ok (FIDMetric (concat (create_dataloader_from_dir (fs w1) feat_dir))
                  (concat (create_dataloader_from_dir (fs w1) feat_dir))).
Proof.
  intros Hne. rewrite fid_from_dirs_truncates.
  - unfold truncated_fid, paired_count. by rewrite Nat.min_id, firstn_all.
  - unfold paired_count. rewrite Nat.min_id.
    destruct (create_dataloader_from_dir (fs w1) feat_dir); [done|simpl; lia].
Qed.

(** X8: when the real and the fake features are cached in the same
    directory and [skip_existing] is set, the fake loader (if it is not
    longer than the real one) contributes nothing: once the extraction over
    the real loader has completed, the extraction over the fake loader skips
    every position, and the distance is computed between the records of that
    one directory and themselves.  This holds for the volumetric entry point
    and for the 2D one; the latter still takes the central slice of each
    fake sample, before it tests for the record. *)
Theorem shared_directory_compares_real_with_itself
    (real_img_loader fake_img_loader : list (sample Age Sex))
    (feat_dir : string) w w1 :
  length fake_img_loader <= length real_img_loader ->
  create_dataloader_from_dir (fs w1) feat_dir <> [] ->
  let feats := concat (create_dataloader_from_dir (fs w1) feat_dir) in
  (_extract_medicalnet_features_to_dir medicalnet real_img_loader feat_dir true w
   = Ok w1 ->
   evaluate_fid_medicalnet3d medicalnet FIDMetric create_dataloader_from_dir
     real_img_loader fake_img_loader feat_dir feat_dir true w
   = Ok (FIDMetric feats feats, w1))
  /\ (_extract_imagenet_features_to_dir imagenet real_img_loader feat_dir true w
      = Ok w1 ->
      Forall (fun data => returns (central_slice (image data))) fake_img_loader ->
      evaluate_fid_imagenet2d imagenet FIDMetric create_dataloader_from_dir
        real_img_loader fake_img_loader feat_dir feat_dir true w
      = Ok (FIDMetric feats feats, w1)).
Proof.
  intros Hlen Hne feats. split.
  - intros Hreal.
    assert (Hfake : _extract_medicalnet_features_to_dir medicalnet fake_img_loader
                      feat_dir true w1 = Ok w1).
    { unfold _extract_medicalnet_features_to_dir. rewrite enumerate_from_0.
      apply medicalnet_all_skipped. intros j Hj.
      apply (medicalnet_run_exists _ _ _ _ _ _ Hreal). lia. }
    unfold evaluate_fid_medicalnet3d. rewrite Hreal. simpl. rewrite Hfake. simpl.
    by rewrite fid_of_shared_directory.
  - intros Hreal Hsl.
    assert (Hfake : _extract_imagenet_features_to_dir imagenet fake_img_loader
                      feat_dir true w1 = Ok w1).
    { unfold _extract_imagenet_features_to_dir. rewrite enumerate_from_0.
      apply imagenet_all_skipped; [done|]. intros j Hj.
      apply (imagenet_run_exists _ _ _ _ _ _ Hreal). lia. }
    unfold evaluate_fid_imagenet2d. rewrite Hreal. simpl. rewrite Hfake. simpl.
    by rewrite fid_of_shared_directory.
Qed.

End EvaluateMore.

(** X9: within one destination directory, two samples get the same record
    file exactly when they are at the same position of the loader. *)
Theorem record_files_are_distinct (dest_dir : string) (i j : nat) :
  save_path dest_dir i = save_path dest_dir j <-> i = j.
Proof. split; [apply save_path_inj|by intros ->]. Qed.

(** From an empty directory the 2D entry point extracts the real sample and
    skips the fake one; over a directory that holds the record already, the
    volumetric entry point skips both. *)
Lemma shared_directory_compares_real_with_itself_witness :
  (exists w1,
     evaluate_fid_imagenet2d example_imagenet example_fid example_dataloader
       [example_sample] [example_other_sample] "cache" "cache" true example_world
     = Ok (example_fid [7] [7], w1))
  /\ evaluate_fid_medicalnet3d example_medicalnet example_fid example_dataloader
       [example_sample] [example_other_sample] "cache" "cache" true
       example_cached_world
     = Ok (example_fid [1] [1], example_cached_world).
Proof.
  split.
  - eassert (Hreal : _extract_imagenet_features_to_dir example_imagenet
                       [example_sample] "cache" true example_world = Ok _)
      by reflexivity.
    match type of Hreal with _ = Ok ?w => exists w; set (w1 := w) in * end.
    refine (proj2 (shared_directory_compares_real_with_itself example_medicalnet
                     example_imagenet example_fid example_dataloader
                     [example_sample] [example_other_sample] "cache"
                     example_world w1 _ _) Hreal _).
    + simpl. lia.
    + done.
    + constructor; [|constructor]. by eexists.
  - refine (proj1 (shared_directory_compares_real_with_itself example_medicalnet
                     example_imagenet example_fid example_dataloader
                     [example_sample] [example_other_sample] "cache"
                     example_cached_world example_cached_world _ _) _).
    + simpl. lia.
    + done.
    + reflexivity.
Defined.

(** * Further properties of the Pairwise Similarity Sampler *)

Section MsssimMore.
Import Msssim.
Local Open Scope R_scope.

Context {vol : Type}.
Variable msssim : vol -> vol -> R.

Lemma compute_from_loops_end (loader : list vol) (N : Z) :
  let sims := map (similarity msssim)
                  (firstn (Z.to_nat N) (ordered_pairs loader)) in
  (1 <= length sims)%nat ->
  compute_pairwise_msssim msssim loader N = Ok (arithmetic_mean sims).
Proof.
  intros sims Hlen. unfold compute_pairwise_msssim.
  pose proof (loops_end msssim loader N) as Hend. simpl in Hend. fold sims in Hend.
  rewrite Hend. cbn [fst snd].
  destruct (Z.of_nat (length sims) =? 0)%Z eqn:Hz; [apply Z.eqb_eq in Hz; lia|].
  unfold arithmetic_mean. by rewrite INR_IZR_INZ.
Qed.

Lemma map_snd_enumerate_from {A : Type} (l : list A) : forall k,
  map snd (enumerate_from k l) = l.
Proof.
  induction l as [|x l IH]; intros k; [done|].
  rewrite enumerate_from_cons. simpl. by rewrite IH.
Qed.

Lemma pairs_against_later (data0 : vol) (rest : list vol) : forall k,
  (1 <= k)%nat ->
  flat_map (fun y : nat * vol =>
              if bool_decide (0%nat ≠ y.1)
              then [((0%nat, y.1), (data0, y.2))] else [])
           (enumerate_from k rest)
  = map (fun y => ((0%nat, y.1), (data0, y.2))) (enumerate_from k rest).
Proof.
  induction rest as [|d rest IH]; intros k Hk; [done|].
  rewrite enumerate_from_cons. cbn [flat_map map fst snd].
  rewrite bool_decide_eq_true_2 by lia. simpl. f_equal. apply IH. lia.
Qed.

Lemma pairs_from_first (data0 : vol) (rest : list vol) :
  pairs_from (data0 :: rest) (0%nat, data0)
  = map (fun y => ((0%nat, y.1), (data0, y.2))) (enumerate_from 1 rest).
Proof.
  unfold pairs_from. rewrite enumerate_from_0, enumerate_from_cons.
  cbn [flat_map fst snd]. rewrite bool_decide_eq_false_2 by (by intros H).
  simpl. by apply pairs_against_later.
Qed.

(** X10: when the budget is smaller than the loader, only the first sample is
    ever compared: for a budget [1 <= N <= n - 1] the result is the mean of
    the similarities of sample 0 with the samples 1 to [N]. *)
Theorem small_budget_compares_first_sample_only (data0 : vol) (rest : list vol)
    (N : Z) :
  (1 <= N)%Z -> (Z.to_nat N <= length rest)%nat ->
  compute_pairwise_msssim msssim (data0 :: rest) N
  = Ok (arithmetic_mean (map (msssim data0) (firstn (Z.to_nat N) rest))).
Proof.
  intros HN Hlen.
  assert (Hsims : map (similarity msssim)
                      (firstn (Z.to_nat N) (ordered_pairs (data0 :: rest)))
                  = map (msssim data0) (firstn (Z.to_nat N) rest)).
  { unfold ordered_pairs. rewrite enumerate_from_0, enumerate_from_cons.
    cbn [flat_map]. rewrite pairs_from_first.
    rewrite firstn_app.
    replace (Z.to_nat N - length _)%nat with 0%nat
      by (rewrite length_map, length_enumerate_from; lia).
    rewrite firstn_0, app_nil_r, <- firstn_map, map_map. cbn [snd fst].
    unfold similarity. cbn [snd fst].
    rewrite <- (map_map snd (msssim data0)), map_snd_enumerate_from.
    by rewrite firstn_map. }
  rewrite compute_from_loops_end; rewrite Hsims; [done|].
  rewrite length_map, length_firstn. lia.
Qed.

Lemma running_sum_bounds (lo hi : R) (l : list R) :
  Forall (fun s => lo <= s <= hi) l ->
  lo * INR (length l) <= running_sum l <= hi * INR (length l).
Proof.
  unfold running_sum. intros Hall.
  assert (H : forall a, a + lo * INR (length l) <= fold_left Rplus l a
                        <= a + hi * INR (length l)).
  { induction Hall as [|s l Hs _ IH]; intros a.
    - simpl. lra.
    - cbn [fold_left length]. rewrite S_INR. specialize (IH (a + s)). lra. }
  specialize (H 0). lra.
Qed.

(** X11: the result is an average: when the metric takes its values in an
    interval [[lo, hi]], so does the result, for every loader of at least two
    samples and every budget of at least one. *)
Theorem result_within_metric_bounds (lo hi : R) (loader : list vol) (N : Z) :
  (forall a b, lo <= msssim a b <= hi) ->
  (2 <= length loader)%nat -> (1 <= N)%Z ->
  exists r, compute_pairwise_msssim msssim loader N = Ok r /\ lo <= r <= hi.
Proof.
  intros Hbound Hn HN.
  set (sims := map (similarity msssim)
                   (firstn (Z.to_nat N) (ordered_pairs loader))).
  assert (Hlen : (1 <= length sims)%nat).
  { unfold sims. rewrite (final_count msssim loader N).
    assert (2 <= length loader * (length loader - 1))%nat by nia. lia. }
  exists (arithmetic_mean sims). split; [by apply compute_from_loops_end|].
  assert (Hall : Forall (fun s => lo <= s <= hi) sims).
  { unfold sims. apply Forall_forall. intros s Hs. apply list_elem_of_In in Hs.
    apply in_map_iff in Hs as (p & <- & _). apply Hbound. }
  pose proof (running_sum_bounds lo hi sims Hall) as [Hlo Hhi].
  assert (Hpos : 0 < INR (length sims)) by (apply lt_0_INR; lia).
  unfold arithmetic_mean. split.
  - apply Rmult_le_reg_r with (INR (length sims)); [done|].
    replace (running_sum sims / INR (length sims) * INR (length sims))
      with (running_sum sims) by (field; lra). done.
  - apply Rmult_le_reg_r with (INR (length sims)); [done|].
    replace (running_sum sims / INR (length sims) * INR (length sims))
      with (running_sum sims) by (field; lra). done.
Qed.

(** X12: a budget of at least [n * (n - 1)] is never exhausted: the result is
    the mean over all ordered pairs of distinct samples, and it does not
    depend on the budget. *)
Theorem large_budget_averages_all_pairs (loader : list vol) (N : Z) :
  (2 <= length loader)%nat ->
  (length loader * (length loader - 1) <= Z.to_nat N)%nat ->
  compute_pairwise_msssim msssim loader N
  = Ok (arithmetic_mean (map (similarity msssim) (ordered_pairs loader))).
Proof.
  intros Hn HN.
  assert (Hall : firstn (Z.to_nat N) (ordered_pairs loader) = ordered_pairs loader).
  { apply firstn_all2. by rewrite length_ordered_pairs. }
  rewrite compute_from_loops_end; rewrite Hall; [done|].
  rewrite length_map, length_ordered_pairs. nia.
Qed.

End MsssimMore.

Lemma small_budget_compares_first_sample_only_witness :
  Msssim.compute_pairwise_msssim (fun a b : nat => INR (a + b)) [1; 2; 3; 4]%nat 2
  = Ok (Msssim.arithmetic_mean [INR (1 + 2); INR (1 + 3)]).
Proof.
  apply (small_budget_compares_first_sample_only (fun a b : nat => INR (a + b))
           1%nat [2; 3; 4]%nat 2).
  - lia.
  - simpl. lia.
Defined.

Lemma result_within_metric_bounds_witness :
  exists r,
    Msssim.compute_pairwise_msssim (fun a b : nat => (1 / 2)%R) [1; 2; 3]%nat 4
    = Ok r
    /\ (0 <= r <= 1)%R.
Proof.
  apply (result_within_metric_bounds (fun a b : nat => (1 / 2)%R) 0%R 1%R
           [1; 2; 3]%nat 4).
  - intros a b. lra.
  - simpl. lia.
  - lia.
Defined.

Lemma large_budget_averages_all_pairs_witness :
  Msssim.compute_pairwise_msssim (fun a b : nat => INR (a + b)) [1; 2]%nat 1000
  = Ok (Msssim.arithmetic_mean [INR (1 + 2); INR (2 + 1)]).
Proof.
  apply (large_budget_averages_all_pairs (fun a b : nat => INR (a + b)) [1; 2]%nat 1000).
  - simpl. lia.
  - simpl. lia.
Defined.

(** * Properties of the plotting computations *)

Section PlotsProps.
Import Plots.
Local Open Scope R_scope.

(** Within the range of a 64-bit integer the cast changes nothing. *)
Lemma decade_castable (label : R) :
  castable label -> decade label = (Int_part (label / 10) * 10)%Z.
Proof.
  unfold castable, decade, astype_int. intros [Hlo Hhi].
  destruct (base_Int_part (label / 10)) as [Hle Hgt].
  set (z := (Int_part (label / 10) * 10)%Z).
  assert (Hz : IZR z = IZR (Int_part (label / 10)) * 10)
    by (unfold z; by rewrite mult_IZR).
  assert (H1 : (int64_min <= z)%Z) by (apply le_IZR; lra).
  assert (H2 : (z <= int64_max)%Z) by (apply le_IZR; lra).
  apply Z.leb_le in H1, H2. by rewrite H1, H2.
Qed.

Lemma decade_bounds (label : R) :
  castable label -> IZR (decade label) <= label < IZR (decade label) + 10.
Proof.
  intros Hc. rewrite (decade_castable label Hc), mult_IZR.
  destruct (base_Int_part (label / 10)) as [Hlo Hhi]. lra.
Qed.

Lemma decade_multiple_of_ten (label : R) :
  castable label -> (decade label mod 10 = 0)%Z.
Proof. intros Hc. rewrite (decade_castable label Hc). apply Z.mod_mul. lia. Qed.

(** The decade of a label is the multiple of ten at or below it. *)
Lemma decade_unique (label : R) (d : Z) :
  castable label -> (d mod 10 = 0)%Z -> IZR d <= label < IZR d + 10 ->
  decade label = d.
Proof.
  intros Hc Hmod Hd. rewrite (decade_castable label Hc).
  apply Z.mod_divide in Hmod as [q ->]; [|lia].
  f_equal. symmetry. apply Int_part_spec.
  rewrite mult_IZR in Hd. lra.
Qed.

(** A label beyond the range of a 64-bit integer is filed under the
    smallest one. *)
Example decade_out_of_range : decade (IZR (10 ^ 19)) = int64_min.
Proof.
  unfold decade.
  assert (Hpart : Int_part (IZR (10 ^ 19) / 10) = (10 ^ 18)%Z).
  { symmetry. apply Int_part_spec.
    replace (10 ^ 19)%Z with (10 ^ 18 * 10)%Z by reflexivity.
    rewrite mult_IZR. set (a := IZR (10 ^ 18)). lra. }
  rewrite Hpart. reflexivity.
Qed.

(** X13: the age bins are the decades.  For labels whose decade is within
    the range of a 64-bit integer, the bin of a label is a multiple of ten
    and the label lies in [[decade, decade + 10)], the interval printed
    under the box; and a loss is filed in the box of a decade exactly when
    it comes from a row whose label has that decade and the decade is not
    among the bins to ignore. *)
Theorem losses_are_filed_by_decade (bins_to_ignore : option (list Z))
    (rows : list (R * R)) (d : Z) (loss : R) :
  Forall (fun row => castable row.1) rows ->
  In loss (box_of d (keep_rows bins_to_ignore rows))
  <-> exists label,
        In (label, loss) rows
        /\ decade label = d
        /\ (d mod 10 = 0)%Z
        /\ IZR d <= label < IZR d + 10
        /\ (forall bins, bins_to_ignore = Some bins -> d ∉ bins).
Proof.
  intros Hcast. rewrite Forall_forall in Hcast.
  unfold box_of. rewrite in_map_iff. split.
  - intros ([label loss'] & Hloss & Hin). simpl in Hloss. subst loss'.
    apply filter_In in Hin as [Hin Hd]. simpl in Hd.
    apply bool_decide_eq_true in Hd. subst d.
    exists label.
    assert (Hkept : In (label, loss) rows
                    /\ forall bins, bins_to_ignore = Some bins ->
                                    decade label ∉ bins).
    { destruct bins_to_ignore as [[|b bs]|]; simpl in Hin.
      - split; [done|]. intros bins [= <-]. apply not_elem_of_nil.
      - apply filter_In in Hin as [Hin Hnot]. simpl in Hnot.
        apply negb_true_iff, bool_decide_eq_false in Hnot.
        split; [done|]. by intros bins [= <-].
      - split; [done|]. by intros bins. }
    destruct Hkept as [Hrow Hbins].
    assert (Hc : castable label)
      by (apply (Hcast (label, loss)), list_elem_of_In, Hrow).
    split; [done|]. split; [done|]. split; [by apply decade_multiple_of_ten|].
    split; [by apply decade_bounds|done].
  - intros (label & Hin & Hd & _ & _ & Hbins).
    exists (label, loss). split; [done|].
    apply filter_In. split; [|simpl; by apply bool_decide_eq_true].
    destruct bins_to_ignore as [[|b bs]|]; simpl; try done.
    apply filter_In. split; [done|]. simpl.
    apply negb_true_iff, bool_decide_eq_false. rewrite Hd. by apply Hbins.
Qed.

(** X14: with the default [colors=None], the colour map raises
    [AttributeError] as soon as there is one model: no default colour is
    ever used, whatever the colour cycle is. *)
Theorem default_colors_argument_raises {color : Type} (default_colors : list color)
    (models : list string) :
  models <> [] ->
  color_map None default_colors models = Raises AttributeError.
Proof. by destruct models. Qed.

Lemma color_map_from_spec {color : Type} (given : gmap string color)
    (default_colors : list color) (models : list string) :
  default_colors <> [] -> NoDup models ->
  forall (i : nat) (acc : gmap string color),
  exists m,
    color_map_from (Some given) default_colors i models acc = Returns m
    /\ (forall j model, models !! j = Some model ->
          exists fallback,
            default_colors !! ((i + j) mod length default_colors)%nat = Some fallback
            /\ m !! model = Some (default fallback (given !! model)))
    /\ (forall key, key ∉ models -> m !! key = acc !! key).
Proof.
  intros Hdc Hnodup.
  assert (Hlen : (length default_colors =? 0)%nat = false).
  { apply Nat.eqb_neq. by destruct default_colors. }
  induction Hnodup as [|model models Hnotin Hnodup IH]; intros i acc.
  - exists acc. split; [done|]. split; [by intros j model|done].
  - cbn [color_map_from]. rewrite Hlen.
    destruct (lookup_lt_is_Some_2 default_colors (i mod length default_colors)%nat)
      as [fallback Hfb].
    { apply Nat.mod_upper_bound. by destruct default_colors. }
    rewrite Hfb.
    destruct (IH (S i) (<[model := default fallback (given !! model)]> acc))
      as (m & Hm & Hmodels & Hother).
    exists m. split; [done|]. split.
    + intros [|j] model' Hj; simpl in Hj.
      * injection Hj as <-. exists fallback. rewrite Nat.add_0_r.
        split; [done|]. rewrite Hother; [|done]. by rewrite lookup_insert_eq.
      * replace (i + S j)%nat with (S i + j)%nat by lia. by apply Hmodels.
    + intros key Hkey. apply not_elem_of_cons in Hkey as [Hne Hkey].
      rewrite Hother; [|done]. by rewrite lookup_insert_ne.
Qed.

(** X15: with a dictionary of colours and a non-empty colour cycle, the
    colour map is defined for exactly the models; a model that has a colour
    in the dictionary gets it, and the model at position [i] without one
    gets the colour [i mod len] of the cycle. *)
Theorem color_map_prefers_given_colors {color : Type} (given : gmap string color)
    (default_colors : list color) (models : list string) :
  default_colors <> [] -> NoDup models ->
  exists m,
    color_map (Some given) default_colors models = Returns m
    /\ (forall i model, models !! i = Some model ->
          exists fallback,
            default_colors !! (i mod length default_colors)%nat = Some fallback
            /\ m !! model = Some (default fallback (given !! model)))
    /\ (forall key, key ∉ models -> m !! key = None).
Proof.
  intros Hdc Hnodup.
  destruct (color_map_from_spec given default_colors models Hdc Hnodup 0 ∅)
    as (m & Hm & Hmodels & Hother).
  exists m. split; [done|]. split; [done|].
  intros key Hkey. by rewrite Hother.
Qed.

Lemma sum_abs_nonneg {A : Type} (f : A -> R) (l : list A) :
  0 <= Tensor.sum (map (fun x => Rabs (f x)) l).
Proof.
  unfold Tensor.sum. induction l as [|x l IH]; simpl; [lra|].
  pose proof (Rabs_pos (f x)). lra.
Qed.

(** X16: the grouped value of a region is [nan] when every index of the
    region is ignored (or the region has none), and no bar is drawn for it;
    as soon as one index is kept it is a finite, non-negative number, an
    index missing from the model's data counting as zero. *)
Theorem grouped_value_is_nan_or_nonnegative (model_data : gmap string R)
    (ignore_indices : gset Z) (indices : list Z) :
  (Forall (fun i => i ∈ ignore_indices) indices ->
   grouped_cohens_d model_data ignore_indices indices = Tensor.NaN)
  /\ (forall i, In i indices -> i ∉ ignore_indices ->
        exists v, grouped_cohens_d model_data ignore_indices indices = Tensor.Fin v
                  /\ 0 <= v)
  /\ ((forall i, In i indices -> model_data !! pretty i = None) ->
      forall i, In i indices -> i ∉ ignore_indices ->
      grouped_cohens_d model_data ignore_indices indices = Tensor.Fin 0).
Proof.
  unfold grouped_cohens_d.
  set (keep := fun i : Z => negb (bool_decide (i ∈ ignore_indices))).
  set (value := fun i : Z => default 0 (model_data !! pretty i)).
  split; [|split].
  - intros Hall. replace (List.filter keep indices) with (@nil Z); [done|].
    symmetry. induction Hall as [|i l Hi _ IH]; simpl; [done|].
    unfold keep at 1. by rewrite bool_decide_eq_true_2.
  - intros i Hin Hnot.
    assert (Hkept : In i (List.filter keep indices)).
    { apply filter_In. split; [done|]. unfold keep.
      by rewrite bool_decide_eq_false_2. }
    destruct (List.filter keep indices) as [|j kept] eqn:Hk; [done|].
    eexists. split; [reflexivity|].
    apply Rmult_le_pos; [apply (sum_abs_nonneg value)|].
    apply Rlt_le, Rinv_0_lt_compat, lt_0_INR. simpl. lia.
  - intros Hmissing i Hin Hnot.
    assert (Hkept : In i (List.filter keep indices)).
    { apply filter_In. split; [done|]. unfold keep.
      by rewrite bool_decide_eq_false_2. }
    assert (Hzero : forall l, (forall j, In j l -> In j indices) ->
              Tensor.sum (map (fun j => Rabs (value j)) l) = 0).
    { induction l as [|j l IH]; intros Hsub; [done|].
      unfold Tensor.sum in *. simpl. rewrite IH.
      - unfold value. rewrite (Hmissing j) by (apply Hsub; by left).
        simpl. rewrite Rabs_R0. lra.
      - intros j' Hj'. apply Hsub. by right. }
    destruct (List.filter keep indices) as [|j kept] eqn:Hk; [done|].
    change (Tensor.Fin (Tensor.sum (map (fun j => Rabs (value j)) (j :: kept))
                        / INR (length (map (fun j => Rabs (value j)) (j :: kept))))
            = Tensor.Fin 0).
    rewrite Hzero.
    + f_equal. unfold Rdiv. lra.
    + intros j' Hj'. rewrite <- Hk in Hj'. by apply filter_In in Hj' as [? _].
Qed.

(** X17: with no model the bar width raises [ZeroDivisionError]; with
    [m >= 1] models the bars of a group are side by side, one bar width
    apart, the tick of the group is midway between its first and its last
    bar, and the last bar of a group ends before the first bar of the next
    group begins. *)
Theorem bar_layout (m g i : nat) :
  bar_width 0 = Raises (Builtin ZeroDivisionError)
  /\ ((1 <= m)%nat ->
      exists width,
        bar_width m = Returns width /\ 0 < width
        /\ bar_position width g (S i) - bar_position width g i = width
        /\ tick_position width m g
           = (bar_position width g 0 + bar_position width g (m - 1)) / 2
        /\ bar_position width g (m - 1) + width / 2
           < bar_position width (S g) 0 - width / 2).
Proof.
  split; [done|]. intros Hm.
  assert (Hpos : 0 < INR m) by (apply lt_0_INR; lia).
  exists (0.8 / INR m).
  split; [unfold bar_width; by destruct m; [lia|]|].
  split; [apply Rdiv_lt_0_compat; lra|].
  unfold bar_position, tick_position.
  rewrite !S_INR, minus_INR by lia. simpl INR.
  split; [lra|]. split; [lra|].
  assert (Hw : INR m * (0.8 / INR m) = 0.8) by (field; lra).
  nra.
Qed.

(** X18: with [m >= 1] models the boxes of a group are laid out
    symmetrically about the tick of the group, and every box lies within
    0.3 of it. *)
Theorem box_layout (m g i : nat) :
  box_width 0 = Raises (Builtin ZeroDivisionError)
  /\ ((1 <= m)%nat -> (i < m)%nat ->
      exists width,
        box_width m = Returns width /\ 0 < width
        /\ box_position m width g i + box_position m width g (m - 1 - i)
           = 2 * INR g
        /\ INR g - 0.3 <= box_position m width g i - width / 2
        /\ box_position m width g i + width / 2 <= INR g + 0.3).
Proof.
  split; [done|]. intros Hm Hi.
  assert (Hpos : 0 < INR m) by (apply lt_0_INR; lia).
  assert (Hi0 : 0 <= INR i) by apply pos_INR.
  assert (Him : INR i + 1 <= INR m).
  { rewrite <- S_INR. apply le_INR. lia. }
  exists (0.6 / INR m).
  split; [unfold box_width; by destruct m; [lia|]|].
  assert (Hwpos : 0 < 0.6 / INR m) by (apply Rdiv_lt_0_compat; lra).
  split; [done|].
  assert (Hw : INR m * (0.6 / INR m) = 0.6) by (field; lra).
  unfold box_position. rewrite !minus_INR by lia. simpl INR.
  split; [nra|]. split; nra.
Qed.

End PlotsProps.

(** *** The plotting properties on examples *)

Lemma castable_IZR (z : Z) :
  (Plots.int64_min + 10 <= z <= Plots.int64_max)%Z -> Plots.castable (IZR z).
Proof.
  intros [Hlo Hhi]. unfold Plots.castable. split.
  - replace 10%R with (IZR 10) by reflexivity.
    rewrite <- plus_IZR. by apply IZR_le.
  - by apply IZR_le.
Qed.

(** Ages 63 and 27 with the bin 20 ignored: the loss of the first row is
    filed under 60. *)
Lemma losses_are_filed_by_decade_witness :
  In (1 / 2)%R
     (Plots.box_of 60 (Plots.keep_rows (Some [20%Z])
                         [(63, 1 / 2); (27, 1 / 4)]%R)).
Proof.
  assert (H63 : Plots.castable 63) by (apply castable_IZR; vm_compute; split; discriminate).
  assert (H27 : Plots.castable 27) by (apply castable_IZR; vm_compute; split; discriminate).
  apply (losses_are_filed_by_decade (Some [20%Z]) [(63, 1 / 2); (27, 1 / 4)]%R
           60 (1 / 2)%R).
  - constructor; [exact H63|]. constructor; [exact H27|]. constructor.
  - exists 63%R.
    split; [simpl; auto|].
    split; [apply decade_unique; [done|reflexivity|lra]|].
    split; [reflexivity|]. split; [lra|].
    intros bins [= <-] Hin. apply list_elem_of_singleton in Hin. discriminate Hin.
Defined.

Lemma default_colors_argument_raises_witness :
  Plots.color_map None ["C0"; "C1"] ["model A"] = Plots.Raises Plots.AttributeError.
Proof.
  apply (default_colors_argument_raises ["C0"; "C1"] ["model A"]). done.
Defined.

Lemma color_map_prefers_given_colors_witness :
  exists m,
    Plots.color_map (Some {[ "model A" := "black" ]}) ["C0"; "C1"]
                    ["model A"; "model B"] = Plots.Returns m
    /\ m !! "model A" = Some "black"
    /\ m !! "model B" = Some "C1".
Proof.
  destruct (color_map_prefers_given_colors {[ "model A" := "black" ]}
              ["C0"; "C1"] ["model A"; "model B"]) as (m & Hm & Hmodels & _).
  - done.
  - apply NoDup_cons. split; [|apply NoDup_singleton].
    intros Hin. apply list_elem_of_singleton in Hin. discriminate Hin.
  - exists m. split; [exact Hm|]. split.
    + destruct (Hmodels 0 "model A" eq_refl) as (fallback & Hfb & HA).
      rewrite HA. reflexivity.
    + destruct (Hmodels 1 "model B" eq_refl) as (fallback & Hfb & HB).
      rewrite HB. simpl in Hfb. injection Hfb as <-. reflexivity.
Defined.

Lemma grouped_value_is_nan_or_nonnegative_witness :
  exists v,
    Plots.grouped_cohens_d {[ "3" := (-2)%R ]} {[ 5%Z ]} [3%Z; 5%Z] = Tensor.Fin v
    /\ (0 <= v)%R.
Proof.
  destruct (grouped_value_is_nan_or_nonnegative {[ "3" := (-2)%R ]} {[ 5%Z ]}
              [3%Z; 5%Z]) as (_ & Hkept & _).
  apply (Hkept 3%Z).
  - simpl. auto.
  - intros Hin. apply elem_of_singleton in Hin. discriminate Hin.
Defined.

Lemma bar_layout_witness :
  exists width, Plots.bar_width 4 = Plots.Returns width /\ (0 < width)%R.
Proof.
  destruct (bar_layout 4 0 0) as [_ Hlayout].
  destruct Hlayout as (width & Hw & Hpos & _); [lia|].
  by exists width.
Defined.

Lemma box_layout_witness :
  exists width,
    Plots.box_width 3 = Plots.Returns width
    /\ (Plots.box_position 3 width 2 0 + Plots.box_position 3 width 2 (3 - 1 - 0)
        = 2 * INR 2)%R.
Proof.
  destruct (box_layout 3 2 0) as [_ Hlayout].
  destruct Hlayout as (width & Hw & _ & Hsym & _); [lia|lia|].
  by exists width.
Defined.
